(** * Escrow lifecycle coordinator of the NFT marketplace front-end

    A shallow embedding of the client-side escrow logic
    ([src/utils/escrow.ts], [src/utils/escrowMessages.ts] and the parts of
    [src/components/EscrowModal.tsx] and [src/components/EscrowStatus.tsx]
    that drive it), followed by the properties established about it.

    Conventions of the embedding:
    - a [bigint] is a [Z];
    - an [Address] and every other JavaScript string is a [string]; a
      conversation identifier is represented by the byte sequence that
      [TextEncoder.encode] produces for it (its UTF-8 encoding), which is
      also how string literals are written here;
    - the reading of the clock ([Date.now()], in milliseconds) is an explicit
      argument [now];
    - asynchronous calls into the wallet, the chain and React are events of
      a trace monad; what the outside world answers is given by a [World]. *)

From Stdlib Require Import ZArith List String Ascii Bool Lia DecimalString.
From Stdlib Require Import DecimalPos DecimalN Sorted Permutation.
Import ListNotations.

Local Open Scope string_scope.
Local Open Scope list_scope.
Local Open Scope Z_scope.

(** ** JavaScript string helpers *)

Module JS.
Local Open Scope string_scope.
Local Open Scope Z_scope.

(** [String.prototype.toLowerCase] on the ASCII range: the letters
    [A]..[Z] are mapped to [a]..[z], every other byte is kept. *)
Definition toLowerCase_char (c : ascii) : ascii :=
  let n := N_of_ascii c in
  if ((65 <=? n) && (n <=? 90))%N then ascii_of_N (n + 32) else c.

Fixpoint toLowerCase (s : string) : string :=
  match s with
  | EmptyString => EmptyString
  | String c s' => String (toLowerCase_char c) (toLowerCase s')
  end.

(** [str.startsWith("-")]. *)
Definition startsWith_minus (s : string) : bool :=
  match s with
  | String c _ => Ascii.eqb c "-"
  | EmptyString => false
  end.

(** [str.slice(1)]. *)
Definition slice1 (s : string) : string :=
  match s with
  | String _ s' => s'
  | EmptyString => EmptyString
  end.

Definition is_digit (c : ascii) : bool :=
  let n := N_of_ascii c in ((48 <=? n) && (n <=? 57))%N.

Fixpoint all_digits (s : string) : bool :=
  match s with
  | EmptyString => true
  | String c s' => is_digit c && all_digits s'
  end.

Definition digit_value (c : ascii) : Z := Z.of_N (N_of_ascii c) - 48.

Fixpoint digits_acc (acc : Z) (s : string) : Z :=
  match s with
  | EmptyString => acc
  | String c s' => digits_acc (10 * acc + digit_value c) s'
  end.

(** [BigInt(s)] for a string of decimal digits (the empty string is [0n]). *)
Definition BigInt_of_digits (s : string) : Z := digits_acc 0 s.

(** [s.split(".")] for a string with at most one dot: the part before the
    dot and, when there is a dot, the part after it. *)
Fixpoint split_dot (s : string) : string * option string :=
  match s with
  | EmptyString => (EmptyString, None)
  | String c s' =>
      if Ascii.eqb c "." then (EmptyString, Some s')
      else let (a, b) := split_dot s' in (String c a, b)
  end.

(** [s.replace(/(0+)$/, "")]: drop the trailing zeros. *)
Fixpoint trim_trailing_zeros (s : string) : string :=
  match s with
  | EmptyString => EmptyString
  | String c s' =>
      match trim_trailing_zeros s' with
      | EmptyString => if Ascii.eqb c "0" then EmptyString else String c EmptyString
      | t => String c t
      end
  end.

Fixpoint zeros (n : nat) : string :=
  match n with
  | O => EmptyString
  | S n' => String "0" (zeros n')
  end.

(** [s.padEnd(n, "0")] and [s.padStart(n, "0")]. *)
Definition padEnd0 (n : nat) (s : string) : string :=
  s ++ zeros (n - String.length s).

Definition padStart0 (n : nat) (s : string) : string :=
  zeros (n - String.length s) ++ s.

(** [s.slice(a, b)] for [0 <= a <= b]. *)
Definition slice (a b : nat) (s : string) : string := substring a (b - a) s.

(** [z.toString()] of a non-negative [bigint]. *)
Definition toString10 (z : Z) : string :=
  NilZero.string_of_uint (N.to_uint (Z.to_N z)).

(** [b.toString(16).padStart(2, "0")] for a byte. *)
Definition hex_digit (n : Z) : ascii :=
  if n <? 10 then ascii_of_N (Z.to_N (48 + n)) else ascii_of_N (Z.to_N (87 + n)).

Definition hex2 (b : Z) : string :=
  String (hex_digit (b / 16)) (String (hex_digit (b mod 16)) EmptyString).

(** [new TextEncoder().encode(s)]: the bytes of the identifier. *)
Definition TextEncoder_encode (s : string) : list Z :=
  List.map (fun c => Z.of_N (N_of_ascii c)) (list_ascii_of_string s).

(** [new Uint8Array(n)]: [n] zero bytes. *)
Definition Uint8Array_new (n : nat) : list Z := List.repeat 0 n.

(** [dst.set(src)] at offset 0, for a source no longer than the target
    (the only use in the code; a longer source raises a RangeError). *)
Definition Uint8Array_set (dst src : list Z) : list Z :=
  src ++ List.skipn (List.length src) dst.

(** [data.slice(0, n)] on a typed array. *)
Definition Uint8Array_slice0 (n : nat) (data : list Z) : list Z :=
  List.firstn n data.

(** [arr.join("")]. *)
Definition join (l : list string) : string :=
  List.fold_right String.append EmptyString l.

(** Truthiness of a [bigint]: [0n] is falsy. *)
Definition truthy_bigint (z : Z) : bool := negb (z =? 0).

(** The nearest IEEE-754 double to an integer (round to nearest, ties to
    even, overflow aside): integers of at most 53 significant bits are
    kept, larger ones lose their low bits. *)
Definition round_double (z : Z) : Z :=
  let a := Z.abs z in
  let bits := Z.log2 a + 1 in
  if bits <=? 53 then z
  else
    let sh := bits - 53 in
    let q := Z.shiftr a sh in
    let r := a - Z.shiftl q sh in
    let half := Z.shiftl 1 (sh - 1) in
    let q' := if (half <? r) || ((r =? half) && Z.odd q) then q + 1 else q in
    Z.sgn z * Z.shiftl q' sh.

(** [a * b] on two integer-valued numbers. *)
Definition Number_mul (a b : Z) : Z := round_double (a * b).

(** [String.prototype.trim] on text in the ASCII range: tab, line feed,
    vertical tab, form feed, carriage return and space are stripped from
    both ends. *)
Definition is_space (c : ascii) : bool :=
  let n := N_of_ascii c in (((9 <=? n) && (n <=? 13)) || (n =? 32))%N.

Fixpoint trimStart (s : string) : string :=
  match s with
  | EmptyString => EmptyString
  | String c s' => if is_space c then trimStart s' else s
  end.

Fixpoint trimEnd (s : string) : string :=
  match s with
  | EmptyString => EmptyString
  | String c s' =>
      match trimEnd s' with
      | EmptyString => if is_space c then EmptyString else String c EmptyString
      | t => String c t
      end
  end.

Definition trim (s : string) : string := trimEnd (trimStart s).

(** [s.split(" ")]: the pieces between single spaces, empty pieces kept. *)
Fixpoint split_space (s : string) : list string :=
  match s with
  | EmptyString => [EmptyString]
  | String c s' =>
      if Ascii.eqb c " " then EmptyString :: split_space s'
      else match split_space s' with
           | p :: ps => String c p :: ps
           | [] => [String c EmptyString]
           end
  end.

(** [words.join(" ")]. *)
Fixpoint join_space (words : list string) : string :=
  match words with
  | [] => EmptyString
  | [w] => w
  | w :: ws => w ++ String " " (join_space ws)
  end.

(** [s.includes(sub)]. *)
Fixpoint includes (sub s : string) : bool :=
  String.prefix sub s
  || match s with
     | EmptyString => false
     | String _ s' => includes sub s'
     end.

(** [s.slice(-n)]: the last [n] characters, the whole string when it is
    shorter. *)
Definition slice_last (n : nat) (s : string) : string :=
  substring (String.length s - n) n s.

End JS.

(** ** Exceptions and results *)

Inductive Error : Type :=
| InvalidDecimalNumberError (value : string)
| ContractFunctionRevertedError (reason : string)
| HttpRequestError (details : string)
| UserRejectedRequestError
| OtherError (message : string).

Inductive Result (A : Type) : Type :=
| Ok (a : A)
| Throw (e : Error).

Arguments Ok {A} a.
Arguments Throw {A} e.

(** ** The unit conversions of the [viem] library

    [parseEther] and [formatEther] are [parseUnits] and [formatUnits] at 18
    decimals.  They are code of the [viem] package, not of this
    repository, and are embedded here after the package's implementation.  The one floating-point step of [parseUnits],
    [Math.round(Number(s))] on a short decimal numeral, only runs when a
    fraction has more digits than the unit has decimals; it is kept as the
    parameter [Math_round_Number]. *)

Module Viem.
Import JS.
Local Open Scope string_scope.
Local Open Scope Z_scope.

Section Units.
Variable Math_round_Number : string -> Z.

(** The test of the regular expression at the head of [parseUnits]: an
    optional minus sign, digits, an optional dot, digits. *)
Definition matches_decimal (value : string) : bool :=
  let body := if startsWith_minus value then slice1 value else value in
  let (i, f) := split_dot body in
  all_digits i && match f with None => true | Some f' => all_digits f' end.

Definition parseUnits (value : string) (decimals : nat) : Result Z :=
  if negb (matches_decimal value) then Throw (InvalidDecimalNumberError value)
  else
    let (integer0, fr) := split_dot value in
    let fraction0 := match fr with Some f => f | None => "0" end in
    let negative := startsWith_minus integer0 in
    let integer1 := if negative then slice1 integer0 else integer0 in
    let fraction1 := trim_trailing_zeros fraction0 in
    let '(integer, fraction) :=
      if Nat.eqb decimals 0 then
        ((if Math_round_Number ("." ++ fraction1) =? 1
          then toString10 (BigInt_of_digits integer1 + 1) else integer1),
         EmptyString)
      else if Nat.ltb decimals (String.length fraction1) then
        let left := slice 0 (decimals - 1) fraction1 in
        let unit := slice (decimals - 1) decimals fraction1 in
        let right := slice decimals (String.length fraction1) fraction1 in
        let rounded := Math_round_Number (unit ++ "." ++ right) in
        let fraction2 :=
          if 9 <? rounded
          then padStart0 (String.length left + 1)
                 (toString10 (BigInt_of_digits left + 1) ++ "0")
          else left ++ toString10 rounded in
        let '(integer2, fraction3) :=
          if Nat.ltb decimals (String.length fraction2)
          then (toString10 (BigInt_of_digits integer1 + 1), slice1 fraction2)
          else (integer1, fraction2) in
        (integer2, slice 0 decimals fraction3)
      else (integer1, padEnd0 decimals fraction1) in
    let magnitude := BigInt_of_digits (integer ++ fraction) in
    Ok (if negative then - magnitude else magnitude).

Definition parseEther (ether : string) : Result Z := parseUnits ether 18.
End Units.

Definition formatUnits (value : Z) (decimals : nat) : string :=
  let negative := value <? 0 in
  let display := padStart0 decimals (toString10 (Z.abs value)) in
  let n := String.length display in
  let integer := slice 0 (n - decimals) display in
  let fraction := trim_trailing_zeros (slice (n - decimals) n display) in
  (if negative then "-" else "")
    ++ (if String.eqb integer "" then "0" else integer)
    ++ (if String.eqb fraction "" then "" else "." ++ fraction).

Definition formatEther (wei : Z) : string := formatUnits wei 18.

End Viem.

(** ** Data model ([escrow.ts]) *)

Definition Address := string.
Definition Hash := string.

Inductive EscrowState : Type :=
| CREATED | FUNDED | NFT_DEPOSITED | ACTIVE | COMPLETED | CANCELLED | DISPUTED.

Definition EscrowState_eqb (a b : EscrowState) : bool :=
  match a, b with
  | CREATED, CREATED | FUNDED, FUNDED | NFT_DEPOSITED, NFT_DEPOSITED
  | ACTIVE, ACTIVE | COMPLETED, COMPLETED | CANCELLED, CANCELLED
  | DISPUTED, DISPUTED => true
  | _, _ => false
  end.

(** The numeric value of the enum, as the contract stores it. *)
Definition EscrowState_value (s : EscrowState) : Z :=
  match s with
  | CREATED => 0 | FUNDED => 1 | NFT_DEPOSITED => 2 | ACTIVE => 3
  | COMPLETED => 4 | CANCELLED => 5 | DISPUTED => 6
  end.

Record Escrow : Type := mkEscrow {
  id : Z;
  seller : Address;
  buyer : Address;
  nftContract : Address;
  tokenId : Z;
  price : Z;
  deadline : Z;
  state : EscrowState;
  createdAt : Z;
  disputeDeadline : Z;
  ipfsMetadata : string;
  sellerAgreed : bool;
  buyerAgreed : bool;
  xmtpConversationId : string
}.

Definition NFT_ESCROW_CONTRACT_ADDRESS : Address :=
  "0x9B581eC73126fE9561dAED14B7B0a2B7E61A0A18".

(** ** Calls to the outside world *)

Inductive Arg : Type :=
| AAddress (a : Address)
| AUint (z : Z)
| ABytes32 (hex : string)
| AString (s : string).

Record WriteRequest : Type := mkWrite {
  w_address : Address;
  w_functionName : string;
  w_args : list Arg;
  w_value : option Z
}.

Inductive ToastKind : Type := info | success | warning | error.

(** One entry of the trace per call that leaves the module, with the answer
    it received. *)
Inductive Event : Type :=
| EvReadEscrow (escrowId : Z) (reply : Result Escrow)
| EvReadConversationEscrows (key : string) (reply : Result (list Z))
| EvWriteContract (request : WriteRequest) (reply : Result Hash)
| EvWaitForTransactionReceipt (hash : Hash) (reply : Result unit)
| EvSetTimeout (delayMs : Z)
| EvConsoleError (label : string)
| EvAddToast (message : string) (kind : ToastKind)
| EvSetEscrow (value : option Escrow)
| EvSetIsLoading (value : bool)
| EvSetEscrowNumber (value : Z)
| EvOnEscrowUpdated (reply : Result unit).

(** What the chain, the wallet and the parent component answer, given what
    has happened so far. *)
Record World : Type := mkWorld {
  chain_getEscrow : list Event -> Z -> Result Escrow;
  chain_getConversationEscrows : list Event -> string -> Result (list Z);
  wallet_writeContract : list Event -> WriteRequest -> Result Hash;
  chain_receipt : list Event -> Hash -> Result unit;
  parent_onEscrowUpdated : list Event -> Result unit
}.

(** A computation reads the world and the history and returns the events it
    adds together with its result or the exception it throws. *)
Definition M (A : Type) : Type := World -> list Event -> list Event * Result A.

Definition ret {A} (a : A) : M A := fun _ _ => ([], Ok a).

Definition throw {A} (e : Error) : M A := fun _ _ => ([], Throw e).

Definition bind {A B} (m : M A) (f : A -> M B) : M B :=
  fun w h =>
    let (t1, r) := m w h in
    match r with
    | Ok a => let (t2, r2) := f a w (h ++ t1) in (t1 ++ t2, r2)
    | Throw e => (t1, Throw e)
    end.

(** [try { m } catch (error) { handler error }]. *)
Definition try_catch {A} (m : M A) (handler : Error -> M A) : M A :=
  fun w h =>
    let (t1, r) := m w h in
    match r with
    | Ok a => (t1, Ok a)
    | Throw e => let (t2, r2) := handler e w (h ++ t1) in (t1 ++ t2, r2)
    end.

(** [try { m } finally { cleanup }] for a cleanup that does not throw. *)
Definition try_finally {A} (m : M A) (cleanup : M unit) : M A :=
  fun w h =>
    let (t1, r) := m w h in
    let (t2, _) := cleanup w (h ++ t1) in
    (t1 ++ t2, r).

(** Lifting of a pure result that may be an exception. *)
Definition lift {A} (r : Result A) : M A := fun _ _ => ([], r).

Declare Scope escrow_scope.
Delimit Scope escrow_scope with escrow.
Notation "x <- m ;; k" := (bind m (fun x => k))
  (at level 61, m at next level, right associativity) : escrow_scope.
Notation "m ;;; k" := (bind m (fun _ => k))
  (at level 61, right associativity) : escrow_scope.
Local Open Scope escrow_scope.

Definition readContract_getEscrow (escrowId : Z) : M Escrow :=
  fun w h => let r := chain_getEscrow w h escrowId in ([EvReadEscrow escrowId r], r).

Definition readContract_getConversationEscrows (key : string) : M (list Z) :=
  fun w h =>
    let r := chain_getConversationEscrows w h key in
    ([EvReadConversationEscrows key r], r).

Definition writeContract (request : WriteRequest) : M Hash :=
  fun w h => let r := wallet_writeContract w h request in ([EvWriteContract request r], r).

Definition waitForTransactionReceipt (hash : Hash) : M unit :=
  fun w h => let r := chain_receipt w h hash in ([EvWaitForTransactionReceipt hash r], r).

Definition emit (e : Event) : M unit := fun _ _ => ([e], Ok tt).

(** [await new Promise(resolve => setTimeout(resolve, delayMs))]. *)
Definition sleep (delayMs : Z) : M unit := emit (EvSetTimeout delayMs).
Definition console_error (label : string) : M unit := emit (EvConsoleError label).
Definition addToast (message : string) (kind : ToastKind) : M unit :=
  emit (EvAddToast message kind).
Definition setEscrow (value : option Escrow) : M unit := emit (EvSetEscrow value).
Definition setIsLoading (value : bool) : M unit := emit (EvSetIsLoading value).

Definition call_onEscrowUpdated : M unit :=
  fun w h => let r := parent_onEscrowUpdated w h in ([EvOnEscrowUpdated r], r).

(** ** The gateway and the coordinator ([escrow.ts]) *)

Module EscrowLib.
Import JS.

Section Gateway.
Variable Math_round_Number : string -> Z.

Definition formatPrice (priceWei : Z) : string := Viem.formatEther priceWei.

Definition parsePrice (priceEth : string) : Result Z :=
  Viem.parseEther Math_round_Number priceEth.

(** The 32 bytes behind [conversationIdToBytes32]: the identifier's
    bytes, cut at 32 and laid over a zeroed buffer. *)
Definition conversationIdBytes (conversationId : string) : list Z :=
  let data := TextEncoder_encode conversationId in
  let bytes32 := Uint8Array_new 32 in
  let length := Nat.min (List.length data) 32 in
  Uint8Array_set bytes32 (Uint8Array_slice0 length data).

Definition conversationIdToBytes32 (conversationId : string) : string :=
  let hex := join (List.map hex2 (conversationIdBytes conversationId)) in
  ("0x" ++ hex)%string.

(** [getEscrow]: the read wrapped in a [try]; whatever the read throws is
    logged and turned into [null]. *)
Definition getEscrow (escrowId : Z) : M (option Escrow) :=
  try_catch
    (result <- readContract_getEscrow escrowId ;;
     ret (Some {| id := id result;
                  seller := seller result;
                  buyer := buyer result;
                  nftContract := nftContract result;
                  tokenId := tokenId result;
                  price := price result;
                  deadline := deadline result;
                  state := state result;
                  createdAt := createdAt result;
                  disputeDeadline := disputeDeadline result;
                  ipfsMetadata := ipfsMetadata result;
                  sellerAgreed := sellerAgreed result;
                  buyerAgreed := buyerAgreed result;
                  xmtpConversationId := xmtpConversationId result |}))
    (fun _ => console_error "Error fetching escrow:" ;;; ret None).

Definition getConversationEscrows (conversationId : string) : M (list Z) :=
  try_catch
    (let xmtpConversationId := conversationIdToBytes32 conversationId in
     result <- readContract_getConversationEscrows xmtpConversationId ;;
     ret result)
    (fun _ => console_error "Error fetching conversation escrows:" ;;; ret []).

(** One round of the polling loop: [Some b] when the body returns [b],
    [None] when the loop goes on. *)
Definition waitForEscrowStateChange_attempt
    (escrowId : Z) (expectedState : EscrowState) (delayMs : Z) (attempt : Z)
  : M (option bool) :=
  try_catch
    (escrow <- getEscrow escrowId ;;
     match escrow with
     | Some e =>
         if EscrowState_eqb (state e) expectedState then ret (Some true)
         else sleep delayMs ;;; ret None
     | None => sleep delayMs ;;; ret None
     end)
    (fun _ =>
       console_error ("Attempt " ++ toString10 (attempt + 1) ++ " failed:")%string ;;;
       ret None).

(** [for (let attempt = 0; attempt < maxAttempts; attempt++)], by
    recursion on the number of rounds left. *)
Fixpoint waitForEscrowStateChange_loop
    (rounds : nat) (attempt : Z)
    (escrowId : Z) (expectedState : EscrowState) (delayMs : Z) : M bool :=
  match rounds with
  | O => ret false
  | S rounds' =>
      r <- waitForEscrowStateChange_attempt escrowId expectedState delayMs attempt ;;
      match r with
      | Some b => ret b
      | None =>
          waitForEscrowStateChange_loop rounds' (attempt + 1)
            escrowId expectedState delayMs
      end
  end.

(** [maxAttempts] defaults to 10 and [delayMs] to 2000 at the call. *)
Definition waitForEscrowStateChange
    (escrowId : Z) (expectedState : EscrowState) (maxAttempts : Z) (delayMs : Z)
  : M bool :=
  waitForEscrowStateChange_loop (Z.to_nat maxAttempts) 0
    escrowId expectedState delayMs.

(** The argument of [createEscrow].  [durationHours] is a whole number: the
    form passes [parseInt] of one of the values of its select box. *)
Record CreateEscrowParams : Type := mkCreateEscrowParams {
  p_seller : Address;
  p_buyer : Address;
  p_nftContract : Address;
  p_tokenId : Z;
  p_priceEth : string;
  p_durationHours : Z;
  p_conversationId : string;
  p_ipfsMetadata : option string
}.

Definition createEscrow (params : CreateEscrowParams) : M Hash :=
  try_catch
    (price <- lift (parsePrice (p_priceEth params)) ;;
     let duration := Number_mul (p_durationHours params) 3600 in
     let xmtpConversationId := conversationIdToBytes32 (p_conversationId params) in
     hash <- writeContract
       {| w_address := NFT_ESCROW_CONTRACT_ADDRESS;
          w_functionName := "createEscrow";
          w_args := [AAddress (p_seller params);
                     AAddress (p_buyer params);
                     AAddress (p_nftContract params);
                     AUint (p_tokenId params);
                     AUint price;
                     AUint duration;
                     ABytes32 xmtpConversationId;
                     AString (match p_ipfsMetadata params with
                              | Some s => s
                              | None => ""
                              end)];
          w_value := None |} ;;
     ret hash)
    (fun error => console_error "Error creating escrow:" ;;; throw error).

Definition depositPayment (escrowId : Z) (priceEth : string) : M Hash :=
  value <- lift (parsePrice priceEth) ;;
  writeContract
    {| w_address := NFT_ESCROW_CONTRACT_ADDRESS;
       w_functionName := "depositPayment";
       w_args := [AUint escrowId];
       w_value := Some value |}.

Definition approveRequest (nftContract : Address) (tokenId : Z) : WriteRequest :=
  {| w_address := nftContract;
     w_functionName := "approve";
     w_args := [AAddress NFT_ESCROW_CONTRACT_ADDRESS; AUint tokenId];
     w_value := None |}.

Definition depositNFTRequest (escrowId : Z) : WriteRequest :=
  {| w_address := NFT_ESCROW_CONTRACT_ADDRESS;
     w_functionName := "depositNFT";
     w_args := [AUint escrowId];
     w_value := None |}.

Definition depositNFT (escrowId : Z) (nftContract : Address) (tokenId : Z) : M Hash :=
  approveHash <- writeContract (approveRequest nftContract tokenId) ;;
  waitForTransactionReceipt approveHash ;;;
  writeContract (depositNFTRequest escrowId).

Definition completeEscrow (escrowId : Z) : M Hash :=
  writeContract
    {| w_address := NFT_ESCROW_CONTRACT_ADDRESS;
       w_functionName := "completeEscrow";
       w_args := [AUint escrowId];
       w_value := None |}.

Definition cancelEscrow (escrowId : Z) (reason : string) : M Hash :=
  writeContract
    {| w_address := NFT_ESCROW_CONTRACT_ADDRESS;
       w_functionName := "cancelEscrow";
       w_args := [AUint escrowId; AString reason];
       w_value := None |}.

Definition raiseDispute (escrowId : Z) (reason : string) : M Hash :=
  value <- lift (Viem.parseEther Math_round_Number "0.01") ;;
  writeContract
    {| w_address := NFT_ESCROW_CONTRACT_ADDRESS;
       w_functionName := "raiseDispute";
       w_args := [AUint escrowId; AString reason];
       w_value := Some value |}.

Definition cancelExpiredEscrow (escrowId : Z) : M Hash :=
  writeContract
    {| w_address := NFT_ESCROW_CONTRACT_ADDRESS;
       w_functionName := "cancelExpiredEscrow";
       w_args := [AUint escrowId];
       w_value := None |}.

End Gateway.

(** [a.toLowerCase() === b.toLowerCase()]. *)
Definition sameAddress (a b : Address) : bool :=
  String.eqb (toLowerCase a) (toLowerCase b).

(** [Date.now() / 1000 > Number(escrow.deadline)]: the clock is in
    milliseconds and the quotient is not truncated, so the test is
    [now > 1000 * deadline].  (Both sides are taken exactly, which is what
    the doubles give for timestamps below 2^53.) *)
Definition isEscrowExpired (now : Z) (escrow : Escrow) : bool :=
  1000 * deadline escrow <? now.

Definition canUserFundEscrow (now : Z) (escrow : Escrow) (userAddress : Address) : bool :=
  EscrowState_eqb (state escrow) CREATED
  && sameAddress (buyer escrow) userAddress
  && negb (isEscrowExpired now escrow).

Definition canUserDepositNFT (now : Z) (escrow : Escrow) (userAddress : Address) : bool :=
  (EscrowState_eqb (state escrow) CREATED || EscrowState_eqb (state escrow) FUNDED)
  && sameAddress (seller escrow) userAddress
  && negb (isEscrowExpired now escrow).

Definition canUserCompleteEscrow (escrow : Escrow) (userAddress : Address) : bool :=
  EscrowState_eqb (state escrow) ACTIVE
  && (sameAddress (buyer escrow) userAddress
      || sameAddress (seller escrow) userAddress).

Definition canUserCancelEscrow (escrow : Escrow) (userAddress : Address) : bool :=
  let isParty := sameAddress (buyer escrow) userAddress
                 || sameAddress (seller escrow) userAddress in
  if EscrowState_eqb (state escrow) COMPLETED
     || EscrowState_eqb (state escrow) CANCELLED
     || EscrowState_eqb (state escrow) DISPUTED
  then false
  else isParty.

Definition canUserRaiseDispute (now : Z) (escrow : Escrow) (userAddress : Address) : bool :=
  (EscrowState_eqb (state escrow) ACTIVE
   || EscrowState_eqb (state escrow) FUNDED
   || EscrowState_eqb (state escrow) NFT_DEPOSITED)
  && (sameAddress (buyer escrow) userAddress
      || sameAddress (seller escrow) userAddress)
  && negb (isEscrowExpired now escrow).

Definition getNextAction (now : Z) (escrow : Escrow) (userAddress : Address) : string :=
  let isExpired := isEscrowExpired now escrow in
  let userIsBuyer := sameAddress (buyer escrow) userAddress in
  let userIsSeller := sameAddress (seller escrow) userAddress in
  match state escrow with
  | COMPLETED => "Escrow completed successfully"
  | CANCELLED => "Escrow was cancelled"
  | DISPUTED =>
      if isExpired then "Dispute expired - can be auto-resolved"
      else "Escrow is under dispute - awaiting resolution"
  | _ =>
      if isExpired then "Escrow expired - funds can be refunded"
      else
        match state escrow with
        | CREATED =>
            if userIsBuyer then "Deposit payment to continue"
            else if userIsSeller then "Waiting for buyer to deposit payment"
            else "No action required"
        | FUNDED =>
            if userIsSeller then "Deposit your NFT to activate escrow"
            else "Waiting for seller to deposit NFT"
        | NFT_DEPOSITED =>
            if userIsBuyer then "Deposit payment to activate escrow"
            else "Waiting for buyer to deposit payment"
        | ACTIVE =>
            if userIsBuyer then "Complete escrow to receive NFT"
            else "Waiting for buyer to complete or auto-complete"
        | _ => "No action required"
        end
  end.

(** [getEscrowByConversation]: the last identifier of the conversation, or
    [null]. *)
Definition getEscrowByConversation (conversationId : string) : M (option Z) :=
  try_catch
    (escrowIds <- getConversationEscrows conversationId ;;
     ret (if (0 <? List.length escrowIds)%nat
          then List.nth_error escrowIds (List.length escrowIds - 1)
          else None))
    (fun _ => console_error "Error fetching escrow by conversation:" ;;; ret None).

End EscrowLib.

(** ** Sorting and searching, as the components use them *)

Module JSArray.

(** [arr.sort((a, b) => Number(key a) - Number(key b))]: the sort is
    stable; it is rendered as an insertion sort on the exact keys. *)
Fixpoint insert_by {A} (key : A -> Z) (x : A) (l : list A) : list A :=
  match l with
  | [] => [x]
  | y :: l' => if key x <=? key y then x :: y :: l' else y :: insert_by key x l'
  end.

Fixpoint sort_by {A} (key : A -> Z) (l : list A) : list A :=
  match l with
  | [] => []
  | x :: l' => insert_by key x (sort_by key l')
  end.

(** The key of an array of identifiers sorted by themselves. *)
Definition ownKey (a : Z) : Z := a.

(** [arr.findIndex(p)]: the first index whose element satisfies [p], or
    [-1]. *)
Fixpoint findIndex_from {A} (p : A -> bool) (i : Z) (l : list A) : Z :=
  match l with
  | [] => -1
  | x :: l' => if p x then i else findIndex_from p (i + 1) l'
  end.

Definition findIndex {A} (p : A -> bool) (l : list A) : Z := findIndex_from p 0 l.

(** [arr.filter(Boolean)] on an array of records or [null]. *)
Fixpoint filter_Boolean {A} (l : list (option A)) : list A :=
  match l with
  | [] => []
  | Some x :: l' => x :: filter_Boolean l'
  | None :: l' => filter_Boolean l'
  end.

End JSArray.

(** ** [escrowMessages.ts] *)

Module EscrowMessages.

(** The body ignores both arguments. *)
Definition getConversationEscrowNumber (conversationId : string) (escrowId : Z) : string :=
  "#1".


(** [parseEscrowCommand]: [None] is [null], [Some (command, args)] the
    object returned. *)
Definition parseEscrowCommand (message : string) : option (string * list string) :=
  let trimmed := JS.trim message in
  if negb (String.prefix "/escrow" trimmed) then None
  else
    let parts := List.filter (fun p => (0 <? String.length p)%nat)
                   (JS.split_space trimmed) in
    match parts with
    | _ :: command :: args => Some (JS.toLowerCase command, args)
    | _ => None
    end.

Definition containsEscrowReference (message : string) : bool :=
  JS.includes "escrow" message || JS.includes "Escrow" message
  || JS.includes "/escrow" message || JS.includes "🤝" message
  || JS.includes "📋" message.

(** The object returned by [checkConversationEscrow]. *)
Record ConversationEscrowCheck : Type := mkCheck {
  hasEscrow : bool;
  checkedEscrowId : option Z
}.

Definition checkConversationEscrow (conversationId : string)
  : M ConversationEscrowCheck :=
  try_catch
    (escrowId <- EscrowLib.getEscrowByConversation conversationId ;;
     ret {| hasEscrow := match escrowId with Some _ => true | None => false end;
            checkedEscrowId :=
              match escrowId with
              | Some i => if JS.truthy_bigint i then Some i else None
              | None => None
              end |})
    (fun _ =>
       console_error "Failed to check conversation escrow:" ;;;
       ret {| hasEscrow := false; checkedEscrowId := None |}).

(** [formatInboxId]; inbox identifiers are hexadecimal text, so lengths in
    bytes and in UTF-16 units agree. *)
Definition formatInboxId (inboxId : string) : string :=
  if String.eqb inboxId "" || String.eqb inboxId "Unknown" then "Unknown"
  else if (10 <? String.length inboxId)%nat
       then (JS.slice 0 6 inboxId ++ "..." ++ JS.slice_last 4 inboxId)%string
       else inboxId.

End EscrowMessages.

(** ** [EscrowStatus.tsx] *)

Module EscrowStatus.
Import JSArray.

(** The number [loadEscrowNumber] computes from the identifiers read for
    the conversation. *)
Definition escrowNumberOf (conversationEscrowIds : list Z) (escrowId : Z) : Z :=
  let sortedEscrows := sort_by ownKey conversationEscrowIds in
  let index := findIndex (fun i => i =? escrowId) sortedEscrows in
  if 0 <=? index then index + 1 else 1.



Inductive UserRole : Type := user_seller | user_buyer.

Definition getUserRole (escrow : Escrow) (userAddress : Address) : option UserRole :=
  if EscrowLib.sameAddress (seller escrow) userAddress then Some user_seller
  else if EscrowLib.sameAddress (buyer escrow) userAddress then Some user_buyer
  else None.

Definition hasAvailableActions (now : Z) (escrow : Escrow) (userAddress : Address) : bool :=
  EscrowLib.canUserFundEscrow now escrow userAddress
  || EscrowLib.canUserDepositNFT now escrow userAddress
  || EscrowLib.canUserCompleteEscrow escrow userAddress
  || EscrowLib.canUserCancelEscrow escrow userAddress
  || EscrowLib.canUserRaiseDispute now escrow userAddress.

End EscrowStatus.

(** ** [EscrowModal.tsx] *)

Module EscrowModal.
Import JS JSArray.

(** The properties of the modal that the modelled handlers read. *)
Record Props : Type := mkProps {
  escrowId : option Z;
  conversationId : string;
  onEscrowUpdated : bool   (* whether the optional callback was passed *)
}.

(** Truthiness of [escrowId?: bigint] and of [expectedState?: EscrowState]
    ([0n] and [EscrowState.CREATED = 0] are falsy). *)
Definition truthy_escrowId (i : option Z) : bool :=
  match i with Some z => truthy_bigint z | None => false end.

Definition truthy_state (s : option EscrowState) : bool :=
  match s with Some st => negb (EscrowState_value st =? 0) | None => false end.

Definition loadEscrowData (props : Props) : M unit :=
  match escrowId props with
  | Some i =>
      if truthy_bigint i then
        setIsLoading true ;;;
        try_finally
          (try_catch
             (escrowData <- EscrowLib.getEscrow i ;;
              setEscrow escrowData)
             (fun _ =>
                console_error "Error loading escrow:" ;;;
                addToast "Failed to load escrow data" error))
          (setIsLoading false)
      else ret tt
  | None => ret tt
  end.

Definition state_updating_warning : string :=
  "Transaction completed but state may still be updating. Please refresh manually.".

Definition pending_warning : string :=
  "Transaction may still be pending. Please refresh manually.".

Definition waitAndRefresh (props : Props) (hash : Hash)
    (expectedState : option EscrowState) : M unit :=
  try_catch
    (waitForTransactionReceipt hash ;;;
     (match expectedState, escrowId props with
      | Some st, Some i =>
          if truthy_state expectedState && truthy_bigint i then
            stateUpdated <- EscrowLib.waitForEscrowStateChange i st 15 3000 ;;
            if negb stateUpdated then addToast state_updating_warning warning
            else ret tt
          else sleep 3000
      | _, _ => sleep 3000
      end) ;;;
     loadEscrowData props ;;;
     (if onEscrowUpdated props then call_onEscrowUpdated else ret tt))
    (fun _ =>
       console_error "Error waiting for transaction:" ;;;
       addToast pending_warning warning).

(** The list and the selection that [loadAllConversationEscrows] stores. *)
Definition sortedEscrows (escrowsData : list (option Escrow)) : list Escrow :=
  sort_by id (filter_Boolean escrowsData).

Definition currentEscrowIndex (sorted : list Escrow) (selected : Z) : Z :=
  let index := findIndex (fun e => id e =? selected) sorted in
  if 0 <=? index then index else 0.

Inductive Role : Type := role_seller | role_buyer.

(** [userRole] of [ManageEscrowView]. *)
Definition userRole (escrow : Escrow) (address : Address) : option Role :=
  if EscrowLib.sameAddress (seller escrow) address then Some role_seller
  else if EscrowLib.sameAddress (buyer escrow) address then Some role_buyer
  else None.

(** Whether [ManageEscrowView] renders the "Cancel Expired Escrow" button:
    inside the [userRole &&] block, under
    [expired && state !== CANCELLED && state !== COMPLETED]. *)
Definition showsCancelExpired (now : Z) (escrow : Escrow) (address : Address) : bool :=
  match userRole escrow address with
  | Some _ =>
      EscrowLib.isEscrowExpired now escrow
      && negb (EscrowState_eqb (state escrow) CANCELLED)
      && negb (EscrowState_eqb (state escrow) COMPLETED)
  | None => false
  end.


(** The part of the modal's state that navigation reads and writes. *)
Record ModalState : Type := mkModalState {
  allEscrows : list Escrow;
  selectedIndex : Z;            (* [currentEscrowIndex] *)
  shownEscrow : option Escrow   (* [escrow] *)
}.

Inductive Direction : Type := prev | next.

(** [allEscrows[i]]: [undefined] outside the array. *)
Definition at_index (l : list Escrow) (i : Z) : option Escrow :=
  if i <? 0 then None else List.nth_error l (Z.to_nat i).

Definition handleEscrowNavigation (direction : Direction) (s : ModalState) : ModalState :=
  let len := Z.of_nat (List.length (allEscrows s)) in
  if len <=? 1 then s
  else
    let newIndex :=
      match direction with
      | prev => if 0 <? selectedIndex s then selectedIndex s - 1 else len - 1
      | next => if selectedIndex s <? len - 1 then selectedIndex s + 1 else 0
      end in
    {| allEscrows := allEscrows s;
       selectedIndex := newIndex;
       shownEscrow := at_index (allEscrows s) newIndex |}.

Section Handlers.
Variable Math_round_Number : string -> Z.
(** [error.message], the text the library puts in what it throws. *)
Variable message : Error -> string.

(** [handleDepositPayment], given the modal's [escrow] and the connected
    [address]. *)
Definition handleDepositPayment (props : Props) (escrow : option Escrow)
    (address : option Address) : M unit :=
  match escrow, address with
  | Some e, Some a =>
      if String.eqb a "" then ret tt
      else
        setIsLoading true ;;;
        try_finally
          (try_catch
             (addToast "Depositing payment..." info ;;;
              hash <- EscrowLib.depositPayment Math_round_Number (id e)
                        (EscrowLib.formatPrice (price e)) ;;
              waitAndRefresh props hash (Some FUNDED) ;;;
              addToast "Payment deposited successfully!" success)
             (fun err =>
                console_error "Error depositing payment:" ;;;
                if JS.includes "User rejected" (message err)
                then addToast "Transaction cancelled by user" warning
                else addToast (if String.eqb (message err) ""
                               then "Failed to deposit payment"
                               else message err) error))
          (setIsLoading false)
  | _, _ => ret tt
  end.
End Handlers.

End EscrowModal.

(** ** The specification's reading of the lifecycle (section 4.1)

    These definitions follow the words of the specification, not the code;
    the theorems below compare the code with them. *)

Module Spec.

Inductive Action : Type :=
| Fund | DepositNFT | Complete | Cancel | RaiseDispute | CancelExpired.

(** What a permission may depend on: the state, who is calling, and
    whether the escrow's deadline and the dispute's deadline have passed. *)
Record Situation : Type := mkSituation {
  st : EscrowState;
  isBuyer : bool;
  isSeller : bool;
  expired : bool;
  disputeExpired : bool
}.

Definition terminal (s : EscrowState) : bool :=
  match s with COMPLETED | CANCELLED => true | _ => false end.

Definition disputed (s : EscrowState) : bool :=
  match s with DISPUTED => true | _ => false end.

Definition eitherParty (x : Situation) : bool := isBuyer x || isSeller x.

Definition lawful (a : Action) (x : Situation) : bool :=
  match a with
  | Fund =>
      isBuyer x && EscrowState_eqb (st x) CREATED && negb (expired x)
  | DepositNFT =>
      isSeller x
      && match st x with CREATED | FUNDED => true | _ => false end
      && negb (expired x)
  | Complete =>
      eitherParty x && EscrowState_eqb (st x) ACTIVE
  | Cancel =>
      eitherParty x
      && negb match st x with COMPLETED | CANCELLED | DISPUTED => true | _ => false end
  | RaiseDispute =>
      eitherParty x
      && match st x with FUNDED | NFT_DEPOSITED | ACTIVE => true | _ => false end
      && negb (expired x)
  | CancelExpired =>
      eitherParty x
      && ((expired x && negb (terminal (st x)) && negb (disputed (st x)))
          || (disputed (st x) && disputeExpired x))
  end.

(** Two addresses that differ at most in the case of their hexadecimal
    letters. *)
Definition hexLetters : list ascii := ["a"; "b"; "c"; "d"; "e"; "f"]%char.

Definition upperOf (lower : ascii) : ascii := ascii_of_N (N_of_ascii lower - 32).

Definition sameHexChar (c d : ascii) : bool :=
Ascii.eqb c d
|| existsb (fun l => (Ascii.eqb c (upperOf l) && Ascii.eqb d l)
                     || (Ascii.eqb c l && Ascii.eqb d (upperOf l)))
     hexLetters.

Fixpoint caseVariant (s t : string) : bool :=
  match s, t with
  | EmptyString, EmptyString => true
  | String c s', String d t' => sameHexChar c d && caseVariant s' t'
  | _, _ => false
  end.

(** Whether the last byte of an identifier is the zero byte. *)
Fixpoint endsWithZeroByte (s : string) : bool :=
  match s with
  | EmptyString => false
  | String c EmptyString => Ascii.eqb c Ascii.zero
  | String _ s' => endsWithZeroByte s'
  end.

(** The 1-based position of [x] in a list (0 when absent). *)
Fixpoint position (x : Z) (l : list Z) : Z :=
  match l with
  | [] => 0
  | y :: l' => if y =? x then 1
               else match position x l' with 0 => 0 | p => p + 1 end
  end.

End Spec.

(** ** The code seen through the specification's vocabulary *)

Definition situation (now : Z) (escrow : Escrow) (userAddress : Address) : Spec.Situation :=
  {| Spec.st := state escrow;
     Spec.isBuyer := EscrowLib.sameAddress (buyer escrow) userAddress;
     Spec.isSeller := EscrowLib.sameAddress (seller escrow) userAddress;
     Spec.expired := EscrowLib.isEscrowExpired now escrow;
     Spec.disputeExpired := 1000 * disputeDeadline escrow <? now |}.

(** The client-side guard of each action. *)
Definition permitted (now : Z) (escrow : Escrow) (userAddress : Address)
    (a : Spec.Action) : bool :=
  match a with
  | Spec.Fund => EscrowLib.canUserFundEscrow now escrow userAddress
  | Spec.DepositNFT => EscrowLib.canUserDepositNFT now escrow userAddress
  | Spec.Complete => EscrowLib.canUserCompleteEscrow escrow userAddress
  | Spec.Cancel => EscrowLib.canUserCancelEscrow escrow userAddress
  | Spec.RaiseDispute => EscrowLib.canUserRaiseDispute now escrow userAddress
  | Spec.CancelExpired => EscrowModal.showsCancelExpired now escrow userAddress
  end.

(** Whether a byte sequence ends in the zero byte. *)
Fixpoint endsZero (l : list Z) : bool :=
  match l with
  | [] => false
  | x :: l' => match l' with [] => x =? 0 | _ => endsZero l' end
  end.

(** The number of escrow reads in a trace, and whether an event is a read
    that shows the expected state. *)
Definition isRead (ev : Event) : bool :=
  match ev with EvReadEscrow _ _ => true | _ => false end.

Definition reads (t : list Event) : nat := List.length (List.filter isRead t).




(** Whether an event is the submission of the contract's [depositNFT]. *)
Definition isDepositCall (ev : Event) : bool :=
  match ev with
  | EvWriteContract request _ => String.eqb (w_functionName request) "depositNFT"
  | _ => false
  end.

(** The number of waits in a trace, and whether every wait lasts [delayMs]. *)
Definition isSleep (ev : Event) : bool :=
  match ev with EvSetTimeout _ => true | _ => false end.

Definition sleeps (t : list Event) : nat := List.length (List.filter isSleep t).

Definition sleepsLast (delayMs : Z) (t : list Event) : bool :=
  forallb (fun ev => match ev with EvSetTimeout d => d =? delayMs | _ => true end) t.

(** Whether an event is a submission to the wallet, a wait for a receipt, or
    a toast of a given kind. *)
Definition isWrite (ev : Event) : bool :=
  match ev with EvWriteContract _ _ => true | _ => false end.

Definition isToastOf (k : ToastKind) (ev : Event) : bool :=
  match ev with
  | EvAddToast _ k' =>
      match k, k' with
      | info, info | success, success | warning, warning | error, error => true
      | _, _ => false
      end
  | _ => false
  end.

(** A computation all of whose events, in every world and after every
    history, satisfy [P]. *)
Definition emitsOnly {A} (P : Event -> bool) (m : M A) : Prop :=
  forall (w : World) (h : list Event), forallb P (fst (m w h)) = true.

Definition notWrite (ev : Event) : bool := negb (isWrite ev).


(** The transaction that pays the price of an escrow. *)
Definition depositPaymentRequest (e : Escrow) : WriteRequest :=
  {| w_address := NFT_ESCROW_CONTRACT_ADDRESS;
     w_functionName := "depositPayment";
     w_args := [AUint (id e)];
     w_value := Some (price e) |}.


(** A word of a chat command: not empty and free of white space. *)
Definition isWord (s : string) : bool :=
  negb (String.eqb s "")
  && forallb (fun c => negb (JS.is_space c)) (list_ascii_of_string s).

(** A decimal numeral with integer digits [ip] and, after a dot, fraction
    digits [fp]; and the number of base units (10^-18) it denotes when the
    fraction has at most 18 digits. *)
Definition decimalNumeral (ip : string) (fp : option string) : string :=
  match fp with
  | Some f => (ip ++ "." ++ f)%string
  | None => ip
  end.

Definition baseUnits (ip : string) (fp : option string) : Z :=
  JS.BigInt_of_digits ip * 10 ^ 18
  + match fp with
    | Some f => JS.BigInt_of_digits f * 10 ^ (18 - Z.of_nat (String.length f))
    | None => 0
    end.

(** A numeral the conversion theorem covers: digits only, and at most 18 of
    them after the dot. *)
Definition wellFormedNumeral (ip : string) (fp : option string) : bool :=
  JS.all_digits ip
  && match fp with
     | Some f => JS.all_digits f && (String.length f <=? 18)%nat
     | None => true
     end.

(** A world that always gives the same answers. *)
Definition constantWorld (read : Result Escrow) (write : Result Hash)
    (receipt : Result unit) : World :=
  {| chain_getEscrow := fun _ _ => read;
     chain_getConversationEscrows := fun _ _ => Ok [];
     wallet_writeContract := fun _ _ => write;
     chain_receipt := fun _ _ => receipt;
     parent_onEscrowUpdated := fun _ => Ok tt |}.

(** An escrow record with other spellings of its two parties. *)
Definition withParties (e : Escrow) (seller' buyer' : Address) : Escrow :=
  {| id := id e; seller := seller'; buyer := buyer';
     nftContract := nftContract e; tokenId := tokenId e; price := price e;
     deadline := deadline e; state := state e; createdAt := createdAt e;
     disputeDeadline := disputeDeadline e; ipfsMetadata := ipfsMetadata e;
     sellerAgreed := sellerAgreed e; buyerAgreed := buyerAgreed e;
     xmtpConversationId := xmtpConversationId e |}.

(** A sample record used by the concrete instances below. *)
Definition sampleEscrow (s : EscrowState) (deadline' disputeDeadline' : Z) : Escrow :=
  {| id := 7;
     seller := "0xAbCdEf0000000000000000000000000000000001";
     buyer := "0x00000000000000000000000000000000000000b2";
     nftContract := "0x00000000000000000000000000000000000000c3";
     tokenId := 42; price := 1500000000000000000;
     deadline := deadline'; state := s; createdAt := 1700000000;
     disputeDeadline := disputeDeadline'; ipfsMetadata := "";
     sellerAgreed := false; buyerAgreed := false;
     xmtpConversationId := "" |}.

(** Sample parameters of [createEscrow] used by the concrete instances. *)
Definition sampleParams : EscrowLib.CreateEscrowParams :=
  {| EscrowLib.p_seller := "0xAbCdEf0000000000000000000000000000000001";
     EscrowLib.p_buyer := "0x00000000000000000000000000000000000000b2";
     EscrowLib.p_nftContract := "0x00000000000000000000000000000000000000c3";
     EscrowLib.p_tokenId := 42;
     EscrowLib.p_priceEth := "1.5";
     EscrowLib.p_durationHours := 24;
     EscrowLib.p_conversationId := "dm:1f2e";
     EscrowLib.p_ipfsMetadata := Some "" |}.

(** * Properties *)

(** ** The embedding on concrete inputs *)

Example parseEther_dispute_fee :
  Viem.parseEther (fun _ => 0) "0.01" = Ok 10000000000000000.
Proof. reflexivity. Qed.

Example parseEther_rejects_exponent :
  Viem.parseEther (fun _ => 0) "1e18" = Throw (InvalidDecimalNumberError "1e18").
Proof. reflexivity. Qed.

Example formatEther_whole : Viem.formatEther 2000000000000000000 = "2".
Proof. reflexivity. Qed.

Example formatEther_small : Viem.formatEther 1234500000000000000000 = "1234.5".
Proof. reflexivity. Qed.

Example conversationIdToBytes32_short :
  EscrowLib.conversationIdToBytes32 "dm:1f2e"
  = "0x646d3a3166326500000000000000000000000000000000000000000000000000".
Proof. reflexivity. Qed.

Example getNextAction_buyer_created :
  EscrowLib.getNextAction 1700000000000 (sampleEscrow CREATED 1700003600 0)
    "0x00000000000000000000000000000000000000B2"
  = "Deposit payment to continue".
Proof. reflexivity. Qed.

Example canUserFundEscrow_after_deadline :
  EscrowLib.canUserFundEscrow 1700003600001 (sampleEscrow CREATED 1700003600 0)
    "0x00000000000000000000000000000000000000B2" = false
  /\ EscrowLib.canUserFundEscrow 1700003600000 (sampleEscrow CREATED 1700003600 0)
       "0x00000000000000000000000000000000000000B2" = true.
Proof. split; reflexivity. Qed.

Example escrowNumberOf_unsorted : EscrowStatus.escrowNumberOf [9; 5; 12] 9 = 2.
Proof. reflexivity. Qed.

Example round_double_loses_low_bits :
  JS.round_double (2 ^ 53 + 1) = 2 ^ 53 /\ JS.round_double 604800 = 604800.
Proof. split; reflexivity. Qed.

(** ** Permission predicates *)

Section Permissions.
Import EscrowLib.

Lemma showsCancelExpired_eq now e u :
  EscrowModal.showsCancelExpired now e u
  = (sameAddress (buyer e) u || sameAddress (seller e) u)
    && isEscrowExpired now e && negb (Spec.terminal (state e)).
Proof.
  unfold EscrowModal.showsCancelExpired, EscrowModal.userRole.
  destruct (sameAddress (seller e) u), (sameAddress (buyer e) u),
    (isEscrowExpired now e), (state e); reflexivity.
Qed.

Lemma permitted_lawful_except_cancelExpired now e u a :
  a <> Spec.CancelExpired ->
  permitted now e u a = Spec.lawful a (situation now e u).
Proof.
  intros Ha. unfold situation.
  destruct a; try congruence; cbn;
    unfold canUserFundEscrow, canUserDepositNFT, canUserCompleteEscrow,
      canUserCancelEscrow, canUserRaiseDispute, Spec.eitherParty; cbn;
    destruct (state e), (sameAddress (buyer e) u), (sameAddress (seller e) u),
      (isEscrowExpired now e); reflexivity.
Qed.

End Permissions.

(** C1 (as the code has it).  For every escrow, clock reading and caller,
    the guards for fund, deposit NFT, complete, cancel and raise dispute
    hold exactly when section 4.1 allows the action; the "Cancel Expired
    Escrow" button is offered to either party exactly when the escrow's own
    deadline has passed and the state is neither COMPLETED nor CANCELLED,
    the DISPUTED state included and the dispute deadline not consulted. *)
Theorem permission_predicates_follow_graph :
  forall (now : Z) (e : Escrow) (u : Address),
    (forall a, a <> Spec.CancelExpired ->
               permitted now e u a = Spec.lawful a (situation now e u))
    /\ permitted now e u Spec.CancelExpired
       = Spec.eitherParty (situation now e u)
         && Spec.expired (situation now e u)
         && negb (Spec.terminal (state e)).
Proof.
  intros now e u. split.
  - intros a Ha. now apply permitted_lawful_except_cancelExpired.
  - cbn. apply showsCancelExpired_eq.
Qed.

(** C1 as stated fails: with a dispute open, the escrow deadline passed and
    the dispute deadline still ahead, the seller is offered "Cancel Expired
    Escrow" although section 4.1 does not allow it. *)
Lemma cancel_expired_button_ignores_dispute_deadline :
  let e := sampleEscrow DISPUTED 1700003600 1700090000 in
  let now := 1700007200000 in
  let u := "0xabcdef0000000000000000000000000000000001" in
  permitted now e u Spec.CancelExpired = true
  /\ Spec.lawful Spec.CancelExpired (situation now e u) = false
  /\ ~ (forall now e u a, permitted now e u a = Spec.lawful a (situation now e u)).
Proof.
  cbv zeta. split; [reflexivity | split; [reflexivity |]].
  intros H.
  specialize (H 1700007200000 (sampleEscrow DISPUTED 1700003600 1700090000)
                "0xabcdef0000000000000000000000000000000001" Spec.CancelExpired).
  vm_compute in H. discriminate H.
Qed.

(** ** Next-action guidance *)

(** C2.  [getNextAction] returns a non-empty string for every escrow, clock
    reading and user; the string is a function of the state, the expiry flag
    and the two role flags alone; COMPLETED, CANCELLED and DISPUTED are
    answered first (whatever the expiry flag for the first two), then
    expiry, then the state and the role; the default "No action required"
    is what is left, namely CREATED, not expired, neither party. *)
Theorem getNextAction_total_and_ordered :
  forall (now : Z) (e : Escrow) (u : Address),
    let x := situation now e u in
    let r := EscrowLib.getNextAction now e u in
    r <> ""
    /\ (forall now' e' u',
          Spec.st (situation now' e' u') = Spec.st x ->
          Spec.expired (situation now' e' u') = Spec.expired x ->
          Spec.isBuyer (situation now' e' u') = Spec.isBuyer x ->
          Spec.isSeller (situation now' e' u') = Spec.isSeller x ->
          EscrowLib.getNextAction now' e' u' = r)
    /\ (state e = COMPLETED -> r = "Escrow completed successfully")
    /\ (state e = CANCELLED -> r = "Escrow was cancelled")
    /\ (state e = DISPUTED ->
        r = if Spec.expired x then "Dispute expired - can be auto-resolved"
            else "Escrow is under dispute - awaiting resolution")
    /\ (Spec.terminal (state e) = false -> Spec.disputed (state e) = false ->
        Spec.expired x = true -> r = "Escrow expired - funds can be refunded")
    /\ (Spec.expired x = false ->
        match state e with
        | CREATED =>
            r = if Spec.isBuyer x then "Deposit payment to continue"
                else if Spec.isSeller x then "Waiting for buyer to deposit payment"
                else "No action required"
        | FUNDED =>
            r = if Spec.isSeller x then "Deposit your NFT to activate escrow"
                else "Waiting for seller to deposit NFT"
        | NFT_DEPOSITED =>
            r = if Spec.isBuyer x then "Deposit payment to activate escrow"
                else "Waiting for buyer to deposit payment"
        | ACTIVE =>
            r = if Spec.isBuyer x then "Complete escrow to receive NFT"
                else "Waiting for buyer to complete or auto-complete"
        | _ => True
        end)
    /\ (r = "No action required" <->
        state e = CREATED /\ Spec.expired x = false
        /\ Spec.isBuyer x = false /\ Spec.isSeller x = false).
Proof.
  intros now e u x r. subst x r. cbn.
  unfold EscrowLib.getNextAction.
  repeat split.
  - destruct (state e), (EscrowLib.isEscrowExpired now e),
      (EscrowLib.sameAddress (buyer e) u), (EscrowLib.sameAddress (seller e) u);
      discriminate.
  - intros now' e' u' Hs Hx Hb Hl. rewrite Hs, Hx, Hb, Hl. reflexivity.
  - intros ->. reflexivity.
  - intros ->. reflexivity.
  - intros ->. reflexivity.
  - destruct (state e); cbn; try discriminate; intros _ _ ->; reflexivity.
  - intros ->. destruct (state e); trivial.
  - destruct (state e), (EscrowLib.isEscrowExpired now e),
      (EscrowLib.sameAddress (buyer e) u), (EscrowLib.sameAddress (seller e) u);
      try discriminate; auto.
  - destruct (state e), (EscrowLib.isEscrowExpired now e),
      (EscrowLib.sameAddress (buyer e) u), (EscrowLib.sameAddress (seller e) u);
      try discriminate; auto.
  - destruct (state e), (EscrowLib.isEscrowExpired now e),
      (EscrowLib.sameAddress (buyer e) u), (EscrowLib.sameAddress (seller e) u);
      try discriminate; auto.
  - destruct (state e), (EscrowLib.isEscrowExpired now e),
      (EscrowLib.sameAddress (buyer e) u), (EscrowLib.sameAddress (seller e) u);
      try discriminate; auto.
  - intros (-> & -> & -> & ->). reflexivity.
Qed.

(** ** Case-insensitive comparison of addresses *)

Section CaseInsensitive.
Import JS EscrowLib.

Lemma sameHexChar_toLowerCase c d :
  Spec.sameHexChar c d = true -> toLowerCase_char c = toLowerCase_char d.
Proof.
  unfold Spec.sameHexChar. intros H.
  apply orb_true_iff in H. destruct H as [H | H].
  - apply Ascii.eqb_eq in H. now subst.
  - cbn in H.
    repeat (apply orb_true_iff in H; destruct H as [H | H]);
      try discriminate H;
      apply andb_true_iff in H; destruct H as [H1 H2];
      apply Ascii.eqb_eq in H1, H2; subst; reflexivity.
Qed.

Lemma caseVariant_toLowerCase s :
  forall t, Spec.caseVariant s t = true -> toLowerCase s = toLowerCase t.
Proof.
  induction s as [| c s IH]; intros [| d t] H; cbn in H; try discriminate.
  - reflexivity.
  - apply andb_true_iff in H. destruct H as [Hc Hs].
    cbn. rewrite (sameHexChar_toLowerCase _ _ Hc), (IH _ Hs). reflexivity.
Qed.

Lemma sameAddress_caseVariant a a' b b' :
  Spec.caseVariant a a' = true -> Spec.caseVariant b b' = true ->
  sameAddress a' b' = sameAddress a b.
Proof.
  intros Ha Hb. unfold sameAddress.
  now rewrite (caseVariant_toLowerCase _ _ Ha), (caseVariant_toLowerCase _ _ Hb).
Qed.

End CaseInsensitive.

(** C10.  Changing the case of hexadecimal letters in the user address or in
    the escrow's buyer and seller fields changes none of the five permission
    predicates nor [getNextAction]. *)
Theorem predicates_ignore_address_case :
  forall (now : Z) (e : Escrow) (u u' seller' buyer' : Address),
    Spec.caseVariant u u' = true ->
    Spec.caseVariant (seller e) seller' = true ->
    Spec.caseVariant (buyer e) buyer' = true ->
    let e' := withParties e seller' buyer' in
    EscrowLib.canUserFundEscrow now e' u' = EscrowLib.canUserFundEscrow now e u
    /\ EscrowLib.canUserDepositNFT now e' u' = EscrowLib.canUserDepositNFT now e u
    /\ EscrowLib.canUserCompleteEscrow e' u' = EscrowLib.canUserCompleteEscrow e u
    /\ EscrowLib.canUserCancelEscrow e' u' = EscrowLib.canUserCancelEscrow e u
    /\ EscrowLib.canUserRaiseDispute now e' u' = EscrowLib.canUserRaiseDispute now e u
    /\ EscrowLib.getNextAction now e' u' = EscrowLib.getNextAction now e u.
Proof.
  intros now e u u' seller' buyer' Hu Hs Hb e'. subst e'.
  unfold EscrowLib.canUserFundEscrow, EscrowLib.canUserDepositNFT,
    EscrowLib.canUserCompleteEscrow, EscrowLib.canUserCancelEscrow,
    EscrowLib.canUserRaiseDispute, EscrowLib.getNextAction,
    EscrowLib.isEscrowExpired, withParties;
    cbn [seller buyer state deadline].
  rewrite (sameAddress_caseVariant _ _ _ _ Hs Hu),
    (sameAddress_caseVariant _ _ _ _ Hb Hu).
  repeat split; reflexivity.
Qed.

Lemma predicates_ignore_address_case_witness :
  let e := sampleEscrow CREATED 1700003600 0 in
  let u := "0xAbCdEf0000000000000000000000000000000001" in
  let u' := "0xABCDEF0000000000000000000000000000000001" in
  let seller' := "0xabcdef0000000000000000000000000000000001" in
  let buyer' := "0x00000000000000000000000000000000000000B2" in
  (Spec.caseVariant u u' = true
   /\ Spec.caseVariant (seller e) seller' = true
   /\ Spec.caseVariant (buyer e) buyer' = true)
  /\ EscrowLib.canUserDepositNFT 1700000000000 (withParties e seller' buyer') u'
     = EscrowLib.canUserDepositNFT 1700000000000 e u
  /\ EscrowLib.getNextAction 1700000000000 (withParties e seller' buyer') u'
     = EscrowLib.getNextAction 1700000000000 e u.
Proof.
  cbv zeta. split; [repeat split; reflexivity |].
  pose proof (predicates_ignore_address_case 1700000000000
       (sampleEscrow CREATED 1700003600 0)
       "0xAbCdEf0000000000000000000000000000000001"
       "0xABCDEF0000000000000000000000000000000001"
       "0xabcdef0000000000000000000000000000000001"
       "0x00000000000000000000000000000000000000B2"
       eq_refl eq_refl eq_refl) as H.
  cbv zeta in H. split; [apply H | apply H].
Defined.

(** ** Conversation identifiers *)

Section ConversationId.
Import JS EscrowLib.

Lemma encode_length s : List.length (TextEncoder_encode s) = String.length s.
Proof.
  unfold TextEncoder_encode. rewrite length_map.
  induction s; cbn; congruence.
Qed.

Lemma encode_inj s t : TextEncoder_encode s = TextEncoder_encode t -> s = t.
Proof.
  unfold TextEncoder_encode. revert t.
  induction s as [| c s IH]; intros [| d t] H; cbn in H; try discriminate.
  - reflexivity.
  - injection H as Hc Hs. apply N2Z.inj in Hc.
    rewrite <- (ascii_N_embedding c), <- (ascii_N_embedding d), Hc.
    f_equal. now apply IH.
Qed.

Lemma encode_range s : Forall (fun b => 0 <= b < 256) (TextEncoder_encode s).
Proof.
  unfold TextEncoder_encode. induction s as [| c s IH]; cbn; constructor; auto.
  pose proof (N_ascii_bounded c). lia.
Qed.

Lemma endsZero_encode s : endsZero (TextEncoder_encode s) = Spec.endsWithZeroByte s.
Proof.
  unfold TextEncoder_encode.
  induction s as [| c s IH]; [reflexivity |].
  destruct s as [| d s].
  - cbn. destruct (Ascii.eqb_spec c Ascii.zero) as [-> | Hc]; [reflexivity |].
    apply Z.eqb_neq. intros H. apply Hc.
    rewrite <- (ascii_N_embedding c).
    replace (N_of_ascii c) with 0%N by lia. reflexivity.
  - exact IH.
Qed.

Lemma firstn_min_length {A} (l : list A) n :
  firstn (Nat.min (List.length l) n) l = firstn n l.
Proof.
  destruct (Nat.le_ge_cases (List.length l) n) as [H | H].
  - rewrite Nat.min_l by exact H.
    now rewrite !firstn_all2 by lia.
  - now rewrite Nat.min_r by exact H.
Qed.

Lemma skipn_repeat {A} (x : A) n k : skipn k (repeat x n) = repeat x (n - k).
Proof.
  revert k. induction n as [| n IH]; intros [| k]; cbn; auto.
Qed.

Lemma Forall_firstn_keeps {A} (P : A -> Prop) (l : list A) :
  forall n, Forall P l -> Forall P (firstn n l).
Proof.
  induction l as [| x l IH]; intros [| n] H; cbn; auto.
  inversion H; subst. constructor; auto.
Qed.

(** The buffer is the first 32 bytes of the identifier followed by zeros. *)
Lemma conversationIdBytes_layout s :
  conversationIdBytes s
  = firstn 32 (TextEncoder_encode s)
    ++ repeat 0 (32 - List.length (firstn 32 (TextEncoder_encode s))).
Proof.
  unfold conversationIdBytes, Uint8Array_set, Uint8Array_slice0, Uint8Array_new.
  rewrite firstn_min_length, skipn_repeat. reflexivity.
Qed.

Lemma conversationIdBytes_short s :
  (String.length s <= 32)%nat ->
  conversationIdBytes s = TextEncoder_encode s ++ repeat 0 (32 - String.length s).
Proof.
  intros H. rewrite conversationIdBytes_layout.
  rewrite firstn_all2 by (rewrite encode_length; exact H).
  now rewrite encode_length.
Qed.

Lemma conversationIdBytes_range s :
  Forall (fun b => 0 <= b < 256) (conversationIdBytes s).
Proof.
  rewrite conversationIdBytes_layout. apply Forall_app. split.
  - apply Forall_firstn_keeps, encode_range.
  - apply Forall_forall. intros b Hb. apply repeat_spec in Hb. lia.
Qed.

Lemma hex_digit_inj a b :
  0 <= a < 16 -> 0 <= b < 16 -> hex_digit a = hex_digit b -> a = b.
Proof.
  intros Ha Hb H.
  assert (Hn : forall n, 0 <= n < 16 ->
               Z.of_N (N_of_ascii (hex_digit n)) = if n <? 10 then 48 + n else 87 + n).
  { intros n Hn. unfold hex_digit.
    destruct (n <? 10); rewrite N_ascii_embedding; lia. }
  pose proof (Hn a Ha) as Ea. pose proof (Hn b Hb) as Eb.
  rewrite H in Ea. rewrite Ea in Eb.
  destruct (Z.ltb_spec a 10), (Z.ltb_spec b 10); lia.
Qed.

Lemma hex2_inj a b :
  0 <= a < 256 -> 0 <= b < 256 -> hex2 a = hex2 b -> a = b.
Proof.
  intros Ha Hb H. unfold hex2 in H. injection H as H1 H2.
  apply hex_digit_inj in H1;
    [| split; [apply Z.div_pos | apply Z.div_lt_upper_bound]; lia
     | split; [apply Z.div_pos | apply Z.div_lt_upper_bound]; lia].
  apply hex_digit_inj in H2; [| apply Z.mod_pos_bound; lia ..].
  rewrite (Z.div_mod a 16), (Z.div_mod b 16) by lia. congruence.
Qed.

Lemma join_hex2_inj l1 :
  forall l2,
    Forall (fun b => 0 <= b < 256) l1 -> Forall (fun b => 0 <= b < 256) l2 ->
    join (List.map hex2 l1) = join (List.map hex2 l2) -> l1 = l2.
Proof.
  induction l1 as [| a l1 IH]; intros [| b l2] H1 H2 H; cbn in H;
    try discriminate; [reflexivity |].
  inversion H1; inversion H2; subst.
  injection H as Ha Hb Hrest.
  f_equal.
  - apply hex2_inj; auto. unfold hex2. congruence.
  - apply IH; auto.
Qed.

Lemma toBytes32_eq_iff s t :
  conversationIdToBytes32 s = conversationIdToBytes32 t
  <-> conversationIdBytes s = conversationIdBytes t.
Proof.
  unfold conversationIdToBytes32. split.
  - intros H. cbn in H. injection H as H.
    apply join_hex2_inj; auto using conversationIdBytes_range.
  - intros ->. reflexivity.
Qed.

Lemma all_zero_endsZero l :
  l <> [] -> Forall (fun b => b = 0) l -> endsZero l = true.
Proof.
  induction l as [| x l IH]; intros Hne Hall; [congruence |].
  inversion Hall; subst. destruct l as [| y l]; [reflexivity |].
  apply IH; [discriminate | assumption].
Qed.

Lemma endsZero_tail x l : endsZero (x :: l) = false -> endsZero l = false.
Proof. destruct l; [reflexivity | auto]. Qed.

Lemma padded_inj l1 :
  forall l2 k1 k2,
    endsZero l1 = false -> endsZero l2 = false ->
    l1 ++ repeat 0 k1 = l2 ++ repeat 0 k2 -> l1 = l2.
Proof.
  assert (Hz : forall l l' k, l <> [] -> repeat 0 k = l ++ l' ->
                              endsZero l = true).
  { intros l l' k Hne H. apply all_zero_endsZero; [exact Hne |].
    apply Forall_forall. intros b Hb.
    apply (repeat_spec k 0 b). rewrite H. apply in_or_app. now left. }
  induction l1 as [| x l1 IH]; intros [| y l2] k1 k2 E1 E2 H; cbn in H.
  - reflexivity.
  - rewrite (Hz (y :: l2) (repeat 0 k2) k1) in E2; [discriminate | discriminate | exact H].
  - rewrite (Hz (x :: l1) (repeat 0 k1) k2) in E1; [discriminate | discriminate | now symmetry].
  - injection H as Hx Hr. subst y. f_equal.
    apply (IH l2 k1 k2); eauto using endsZero_tail.
Qed.

End ConversationId.

(** C3 (as the code has it).  The encoding is a function of the identifier.
    For an identifier of at most 32 bytes the buffer is those bytes followed
    by zero bytes up to 32, so the bytes are recovered from the buffer once
    their number is known; two such identifiers neither of which ends in a
    zero byte and which encode alike are equal.  Two identifiers longer than
    32 bytes with the same first 32 bytes encode alike. *)
Theorem conversationIdToBytes32_properties :
  forall s t : string,
    ((String.length s <= 32)%nat ->
       EscrowLib.conversationIdBytes s
       = JS.TextEncoder_encode s ++ repeat 0 (32 - String.length s)
       /\ firstn (String.length s) (EscrowLib.conversationIdBytes s)
          = JS.TextEncoder_encode s)
    /\ ((String.length s <= 32)%nat -> (String.length t <= 32)%nat ->
        Spec.endsWithZeroByte s = false -> Spec.endsWithZeroByte t = false ->
        EscrowLib.conversationIdToBytes32 s = EscrowLib.conversationIdToBytes32 t ->
        s = t)
    /\ ((32 < String.length s)%nat -> (32 < String.length t)%nat ->
        firstn 32 (JS.TextEncoder_encode s) = firstn 32 (JS.TextEncoder_encode t) ->
        EscrowLib.conversationIdToBytes32 s = EscrowLib.conversationIdToBytes32 t).
Proof.
  intros s t. repeat split.
  - now apply conversationIdBytes_short.
  - rewrite conversationIdBytes_short by assumption.
    rewrite <- (encode_length s) at 1.
    rewrite firstn_app, Nat.sub_diag, firstn_all. cbn. apply app_nil_r.
  - intros Hs Ht Zs Zt H. apply toBytes32_eq_iff in H.
    rewrite !conversationIdBytes_short in H by assumption.
    rewrite <- endsZero_encode in Zs, Zt.
    apply encode_inj. exact (padded_inj _ _ _ _ Zs Zt H).
  - intros _ _ H. apply toBytes32_eq_iff.
    rewrite !conversationIdBytes_layout, H. reflexivity.
Qed.

Lemma conversationIdToBytes32_properties_witness :
  ((String.length "dm:1f2e" <= 32)%nat /\ (String.length "dm:1f2f" <= 32)%nat
   /\ Spec.endsWithZeroByte "dm:1f2e" = false
   /\ Spec.endsWithZeroByte "dm:1f2f" = false)
  /\ (EscrowLib.conversationIdToBytes32 "dm:1f2e"
      = EscrowLib.conversationIdToBytes32 "dm:1f2f" -> "dm:1f2e" = "dm:1f2f")
  /\ EscrowLib.conversationIdToBytes32 "0123456789abcdef0123456789abcdefXY"
     = EscrowLib.conversationIdToBytes32 "0123456789abcdef0123456789abcdefZ".
Proof.
  split; [repeat split; cbn; lia |]. split.
  - apply (proj1 (proj2 (conversationIdToBytes32_properties "dm:1f2e" "dm:1f2f")));
      first [reflexivity | cbn; lia].
  - apply (proj2 (proj2 (conversationIdToBytes32_properties
                           "0123456789abcdef0123456789abcdefXY"
                           "0123456789abcdef0123456789abcdefZ")));
      first [reflexivity | cbn; lia].
Defined.

(** C3 as stated fails: an identifier and the same identifier followed by a
    zero byte are both at most 32 bytes long, differ, and encode alike. *)
Lemma conversationIdToBytes32_not_injective_on_short_ids :
  let s := "a" in
  let t := String "a" (String Ascii.zero EmptyString) in
  (String.length s <= 32)%nat /\ (String.length t <= 32)%nat /\ s <> t
  /\ EscrowLib.conversationIdToBytes32 s = EscrowLib.conversationIdToBytes32 t.
Proof.
  cbv zeta. split; [cbn; lia |]. split; [cbn; lia |].
  split; [discriminate | reflexivity].
Qed.

(** ** Reading an escrow *)

Section Reads.
Import EscrowLib.

Lemma escrow_copy_eq (r : Escrow) :
  {| id := id r; seller := seller r; buyer := buyer r;
     nftContract := nftContract r; tokenId := tokenId r; price := price r;
     deadline := deadline r; state := state r; createdAt := createdAt r;
     disputeDeadline := disputeDeadline r; ipfsMetadata := ipfsMetadata r;
     sellerAgreed := sellerAgreed r; buyerAgreed := buyerAgreed r;
     xmtpConversationId := xmtpConversationId r |} = r.
Proof. destruct r; reflexivity. Qed.

Lemma getEscrow_run (escrowId : Z) (w : World) (h : list Event) :
  getEscrow escrowId w h
  = match chain_getEscrow w h escrowId with
    | Ok r => ([EvReadEscrow escrowId (Ok r)], Ok (Some r))
    | Throw e =>
        ([EvReadEscrow escrowId (Throw e); EvConsoleError "Error fetching escrow:"],
         Ok None)
    end.
Proof.
  unfold getEscrow, try_catch, bind, readContract_getEscrow, ret, console_error, emit.
  destruct (chain_getEscrow w h escrowId) as [r | e]; cbn.
  - now rewrite escrow_copy_eq.
  - reflexivity.
Qed.

End Reads.

(** C5 (as the code has it).  [getEscrow] never throws: it returns the
    record when the read returns one, and [null] exactly when the read
    throws, whatever was thrown, a transport failure included. *)
Theorem getEscrow_null_on_any_failure :
  forall (w : World) (h : list Event) (escrowId : Z),
    (forall e, snd (EscrowLib.getEscrow escrowId w h) <> Throw e)
    /\ (snd (EscrowLib.getEscrow escrowId w h) = Ok None
        <-> exists e, chain_getEscrow w h escrowId = Throw e)
    /\ (forall r, chain_getEscrow w h escrowId = Ok r ->
                  snd (EscrowLib.getEscrow escrowId w h) = Ok (Some r)).
Proof.
  intros w h escrowId. rewrite getEscrow_run.
  destruct (chain_getEscrow w h escrowId) as [r | e]; cbn; repeat split;
    try discriminate; try congruence; eauto.
  intros [e He]. discriminate He.
Qed.

(** C5 as stated fails: when the transport fails, [getEscrow] answers
    [null] and nothing is thrown to the caller. *)
Lemma getEscrow_absorbs_transport_failure :
  let w := constantWorld (Throw (HttpRequestError "fetch failed"))
                         (Ok "0x01") (Ok tt) in
  snd (EscrowLib.getEscrow 7 w []) = Ok None
  /\ ~ (forall (w : World) (h : list Event) (escrowId : Z) (details : string),
          chain_getEscrow w h escrowId = Throw (HttpRequestError details) ->
          snd (EscrowLib.getEscrow escrowId w h) = Throw (HttpRequestError details)).
Proof.
  cbv zeta. split; [reflexivity |].
  intros H.
  specialize (H (constantWorld (Throw (HttpRequestError "fetch failed"))
                               (Ok "0x01") (Ok tt)) [] 7 "fetch failed" eq_refl).
  discriminate H.
Qed.

(** ** Polling for the expected state *)

Section Polling.
Import EscrowLib.

Lemma attempt_run escrowId st delayMs attempt (w : World) (h : list Event) :
  waitForEscrowStateChange_attempt escrowId st delayMs attempt w h
  = match chain_getEscrow w h escrowId with
    | Ok r =>
        if EscrowState_eqb (state r) st
        then ([EvReadEscrow escrowId (Ok r)], Ok (Some true))
        else ([EvReadEscrow escrowId (Ok r); EvSetTimeout delayMs], Ok None)
    | Throw e =>
        ([EvReadEscrow escrowId (Throw e);
          EvConsoleError "Error fetching escrow:";
          EvSetTimeout delayMs], Ok None)
    end.
Proof.
  unfold waitForEscrowStateChange_attempt, try_catch, bind.
  rewrite getEscrow_run.
  destruct (chain_getEscrow w h escrowId) as [r | e]; cbn.
  - destruct (EscrowState_eqb (state r) st); reflexivity.
  - reflexivity.
Qed.


End Polling.

(** ** The coordinator after a transaction *)

Section Coordinator.
Import EscrowLib EscrowModal.

Lemma loadEscrowData_run props i (w : World) (h : list Event) :
  escrowId props = Some i -> i <> 0 ->
  loadEscrowData props w h
  = match chain_getEscrow w (h ++ [EvSetIsLoading true]) i with
    | Ok r =>
        ([EvSetIsLoading true; EvReadEscrow i (Ok r);
          EvSetEscrow (Some r); EvSetIsLoading false], Ok tt)
    | Throw e =>
        ([EvSetIsLoading true; EvReadEscrow i (Throw e);
          EvConsoleError "Error fetching escrow:";
          EvSetEscrow None; EvSetIsLoading false], Ok tt)
    end.
Proof.
  intros Hi Hnz. unfold loadEscrowData. rewrite Hi.
  unfold JS.truthy_bigint. apply Z.eqb_neq in Hnz. rewrite Hnz. cbn [negb].
  unfold bind at 1. unfold setIsLoading at 1, emit. cbv beta iota.
  unfold try_finally, try_catch. unfold bind at 1.
  rewrite getEscrow_run.
  destruct (chain_getEscrow w (h ++ [EvSetIsLoading true]) i); reflexivity.
Qed.

Lemma loadEscrowData_returns props (w : World) (h : list Event) :
  snd (loadEscrowData props w h) = Ok tt.
Proof.
  unfold loadEscrowData.
  destruct (escrowId props) as [i |]; [| reflexivity].
  destruct (Z.eq_dec i 0) as [-> | Hnz]; [reflexivity |].
  pose proof (loadEscrowData_run {| escrowId := Some i;
                                    conversationId := conversationId props;
                                    onEscrowUpdated := onEscrowUpdated props |}
                i w h eq_refl Hnz) as H.
  unfold loadEscrowData in H. cbn [escrowId] in H. rewrite H.
  destruct (chain_getEscrow w (h ++ [EvSetIsLoading true]) i); reflexivity.
Qed.

Lemma try_catch_unit_returns (m : M unit) (handler : Error -> M unit) w h :
  (forall e w' h', snd (handler e w' h') = Ok tt) ->
  snd (try_catch m handler w h) = Ok tt.
Proof.
  intros Hh. unfold try_catch.
  destruct (m w h) as [t1 [[] | e]]; [reflexivity |].
  specialize (Hh e w (h ++ t1)).
  destruct (handler e w (h ++ t1)) as [t2 r2]. exact Hh.
Qed.

Lemma waitAndRefresh_returns props hash expectedState (w : World) (h : list Event) :
  snd (waitAndRefresh props hash expectedState w h) = Ok tt.
Proof.
  unfold waitAndRefresh. apply try_catch_unit_returns.
  intros e w' h'. reflexivity.
Qed.


End Coordinator.



(** ** Depositing the NFT *)

Section DepositNFT.
Import EscrowLib.

Lemma depositNFT_run escrowId nft tok (w : World) (h : list Event) :
  depositNFT escrowId nft tok w h
  = match wallet_writeContract w h (approveRequest nft tok) with
    | Throw e => ([EvWriteContract (approveRequest nft tok) (Throw e)], Throw e)
    | Ok approveHash =>
        let h1 := h ++ [EvWriteContract (approveRequest nft tok) (Ok approveHash)] in
        match chain_receipt w h1 approveHash with
        | Throw e =>
            ([EvWriteContract (approveRequest nft tok) (Ok approveHash);
              EvWaitForTransactionReceipt approveHash (Throw e)], Throw e)
        | Ok u =>
            let h2 := h1 ++ [EvWaitForTransactionReceipt approveHash (Ok u)] in
            let r := wallet_writeContract w h2 (depositNFTRequest escrowId) in
            ([EvWriteContract (approveRequest nft tok) (Ok approveHash);
              EvWaitForTransactionReceipt approveHash (Ok u);
              EvWriteContract (depositNFTRequest escrowId) r], r)
        end
    end.
Proof.
  unfold depositNFT, bind, writeContract, waitForTransactionReceipt.
  destruct (wallet_writeContract w h (approveRequest nft tok)) as [a | e];
    [| reflexivity].
  cbv beta iota zeta.
  destruct (chain_receipt w (h ++ [EvWriteContract (approveRequest nft tok) (Ok a)]) a)
    as [u | e]; reflexivity.
Qed.

End DepositNFT.

(** C7.  In every run of [depositNFT], a submission of the contract's
    [depositNFT] is preceded by exactly the submission of the approval,
    answered with a hash, and the wait for that hash's receipt, answered
    without an exception; and when the approval or the wait for its receipt
    throws, [depositNFT] throws the same exception and its trace has no
    submission of the deposit. *)
Theorem depositNFT_after_confirmed_approval :
  forall (w : World) (h : list Event) (escrowId : Z) (nft : Address) (tok : Z),
    let run := EscrowLib.depositNFT escrowId nft tok w h in
    let approve := EscrowLib.approveRequest nft tok in
    (forall pre ev post,
        fst run = pre ++ ev :: post -> isDepositCall ev = true ->
        exists approveHash,
          pre = [EvWriteContract approve (Ok approveHash);
                 EvWaitForTransactionReceipt approveHash (Ok tt)]
          /\ post = []
          /\ wallet_writeContract w h approve = Ok approveHash
          /\ chain_receipt w (h ++ [EvWriteContract approve (Ok approveHash)])
               approveHash = Ok tt)
    /\ (forall e, wallet_writeContract w h approve = Throw e ->
                  snd run = Throw e /\ existsb isDepositCall (fst run) = false)
    /\ (forall approveHash e,
          wallet_writeContract w h approve = Ok approveHash ->
          chain_receipt w (h ++ [EvWriteContract approve (Ok approveHash)])
            approveHash = Throw e ->
          snd run = Throw e /\ existsb isDepositCall (fst run) = false).
Proof.
  intros w h escrowId nft tok run approve. subst run approve.
  rewrite depositNFT_run.
  destruct (wallet_writeContract w h (EscrowLib.approveRequest nft tok))
    as [a | e] eqn:Ha.
  - cbv zeta.
    destruct (chain_receipt w
                (h ++ [EvWriteContract (EscrowLib.approveRequest nft tok) (Ok a)]) a)
      as [[] | e] eqn:Hr.
    + split; [| split].
      * intros pre ev post Ht Hev. cbn [fst] in Ht.
        destruct pre as [| p0 [| p1 [| p2 pre]]]; cbn in Ht.
        -- injection Ht as <- _. discriminate Hev.
        -- injection Ht as _ <- _. discriminate Hev.
        -- injection Ht as <- <- _ <-. exists a. auto.
        -- injection Ht as _ _ _ Hnil. destruct pre; discriminate Hnil.
      * intros e He. discriminate He.
      * intros a' e Ha' He. injection Ha' as <-. rewrite Hr in He. discriminate He.
    + split; [| split].
      * intros pre ev post Ht Hev. cbn [fst] in Ht.
        destruct pre as [| p0 [| p1 pre]]; cbn in Ht.
        -- injection Ht as <- _. discriminate Hev.
        -- injection Ht as _ <- _. discriminate Hev.
        -- injection Ht as _ _ Hnil. destruct pre; discriminate Hnil.
      * intros e' He. discriminate He.
      * intros a' e' Ha' He. injection Ha' as <-. rewrite Hr in He.
        injection He as <-. split; reflexivity.
  - split; [| split].
    + intros pre ev post Ht Hev. cbn [fst] in Ht.
      destruct pre as [| p0 pre]; cbn in Ht.
      * injection Ht as <- _. discriminate Hev.
      * injection Ht as _ Hnil. destruct pre; discriminate Hnil.
    + intros e' He. injection He as <-. split; reflexivity.
    + intros a' e' Ha'. discriminate Ha'.
Qed.

Lemma depositNFT_after_confirmed_approval_witness :
  let w := constantWorld (Ok (sampleEscrow FUNDED 1700003600 0))
             (Throw UserRejectedRequestError) (Ok tt) in
  wallet_writeContract w [] (EscrowLib.approveRequest "0xc3" 42)
  = Throw UserRejectedRequestError
  /\ snd (EscrowLib.depositNFT 7 "0xc3" 42 w []) = Throw UserRejectedRequestError
  /\ existsb isDepositCall (fst (EscrowLib.depositNFT 7 "0xc3" 42 w [])) = false.
Proof.
  cbv zeta. split; [reflexivity |].
  exact (proj1 (proj2 (depositNFT_after_confirmed_approval
           (constantWorld (Ok (sampleEscrow FUNDED 1700003600 0))
              (Throw UserRejectedRequestError) (Ok tt))
           [] 7 "0xc3" 42))
         UserRejectedRequestError eq_refl).
Defined.

(** ** The dispute fee *)

(** C9.  Whatever the escrow identifier and the reason, [raiseDispute]
    submits one [raiseDispute] transaction carrying 10^16 base units (0.01
    in decimal units) and returns what the wallet answers. *)
Theorem raiseDispute_attaches_fixed_fee :
  forall (Math_round_Number : string -> Z) (w : World) (h : list Event)
         (escrowId : Z) (reason : string),
    let request :=
      {| w_address := NFT_ESCROW_CONTRACT_ADDRESS;
         w_functionName := "raiseDispute";
         w_args := [AUint escrowId; AString reason];
         w_value := Some (10 ^ 16) |} in
    EscrowLib.raiseDispute Math_round_Number escrowId reason w h
    = ([EvWriteContract request (wallet_writeContract w h request)],
       wallet_writeContract w h request).
Proof.
  intros rn w h escrowId reason request. subst request.
  unfold EscrowLib.raiseDispute, bind, lift, writeContract.
  change (Viem.parseEther rn "0.01") with (Ok (A := Z) 10000000000000000).
  cbv beta iota. rewrite app_nil_r.
  destruct (wallet_writeContract w h _); reflexivity.
Qed.

(** ** Unit conversions *)

Section Conversions.
Import JS.

Lemma digits_acc_shift s :
  forall acc, digits_acc acc s
              = acc * 10 ^ Z.of_nat (String.length s) + digits_acc 0 s.
Proof.
  induction s as [| c s IH]; intros acc.
  - cbn. lia.
  - cbn [digits_acc String.length].
    rewrite (IH (10 * acc + digit_value c)), (IH (10 * 0 + digit_value c)).
    rewrite Nat2Z.inj_succ, Z.pow_succ_r by lia. ring.
Qed.

Lemma digits_acc_app s t acc :
  digits_acc acc (s ++ t)%string = digits_acc (digits_acc acc s) t.
Proof.
  revert acc. induction s as [| c s IH]; intros acc; cbn; auto.
Qed.

Lemma length_app s t :
  String.length (s ++ t)%string = (String.length s + String.length t)%nat.
Proof. induction s; cbn; auto. Qed.

Lemma length_zeros n : String.length (zeros n) = n.
Proof. induction n; cbn; auto. Qed.

Lemma digits_zeros n : digits_acc 0 (zeros n) = 0.
Proof.
  induction n as [| n IH]; [reflexivity |].
  cbn [zeros digits_acc]. exact IH.
Qed.

Lemma digits_acc_zeros n acc :
  digits_acc acc (zeros n) = acc * 10 ^ Z.of_nat n.
Proof.
  rewrite digits_acc_shift, length_zeros, digits_zeros. lia.
Qed.

Lemma trim_zeros s :
  exists k, s = (trim_trailing_zeros s ++ zeros k)%string.
Proof.
  induction s as [| c s [k IH]].
  - exists 0%nat. reflexivity.
  - cbn [trim_trailing_zeros].
    destruct (trim_trailing_zeros s) as [| d t] eqn:Ht.
    + cbn in IH. destruct (Ascii.eqb_spec c "0") as [-> | Hc].
      * exists (S k). cbn. now rewrite <- IH.
      * exists k. cbn. now rewrite <- IH.
    + exists k. cbn. cbn in IH. now rewrite <- IH.
Qed.

Lemma all_digits_split ip rest :
  all_digits ip = true ->
  split_dot (ip ++ String "." rest)%string = (ip, Some rest).
Proof.
  induction ip as [| c ip IH]; intros H; [reflexivity |].
  cbn in H. apply andb_true_iff in H. destruct H as [Hc Hip].
  cbn [String.append split_dot].
  destruct (Ascii.eqb_spec c ".") as [-> | _]; [discriminate Hc |].
  now rewrite (IH Hip).
Qed.

Lemma all_digits_no_dot ip :
  all_digits ip = true -> split_dot ip = (ip, None).
Proof.
  induction ip as [| c ip IH]; intros H; [reflexivity |].
  cbn in H. apply andb_true_iff in H. destruct H as [Hc Hip].
  cbn [split_dot].
  destruct (Ascii.eqb_spec c ".") as [-> | _]; [discriminate Hc |].
  now rewrite (IH Hip).
Qed.

Lemma numeral_not_negative ip fp :
  all_digits ip = true -> startsWith_minus (decimalNumeral ip fp) = false.
Proof.
  intros H. destruct ip as [| c ip].
  - destruct fp; reflexivity.
  - cbn in H. apply andb_true_iff in H. destruct H as [Hc _].
    assert (Hm : Ascii.eqb c "-" = false).
    { destruct (Ascii.eqb_spec c "-") as [-> | _]; [discriminate Hc | reflexivity]. }
    destruct fp; cbn; exact Hm.
Qed.

Lemma digits_not_negative ip :
  all_digits ip = true -> startsWith_minus ip = false.
Proof. intros H. exact (numeral_not_negative ip None H). Qed.

Lemma numeral_split ip fp :
  all_digits ip = true -> split_dot (decimalNumeral ip fp) = (ip, fp).
Proof.
  intros H. destruct fp as [f |]; cbn [decimalNumeral].
  - now apply all_digits_split.
  - now apply all_digits_no_dot.
Qed.

Lemma numeral_matches ip fp :
  wellFormedNumeral ip fp = true ->
  Viem.matches_decimal (decimalNumeral ip fp) = true.
Proof.
  unfold wellFormedNumeral. intros H.
  apply andb_true_iff in H. destruct H as [Hip Hfp].
  unfold Viem.matches_decimal.
  rewrite (numeral_not_negative ip fp Hip), (numeral_split ip fp Hip), Hip.
  destruct fp as [f |]; [| reflexivity].
  apply andb_true_iff in Hfp. now destruct Hfp as [-> _].
Qed.

Lemma padded_fraction_value f :
  (String.length f <= 18)%nat ->
  (String.length (trim_trailing_zeros f) <= 18)%nat
  /\ digits_acc 0 (padEnd0 18 (trim_trailing_zeros f))
     = digits_acc 0 f * 10 ^ (18 - Z.of_nat (String.length f)).
Proof.
  intros Hlen. destruct (trim_zeros f) as [k Hk].
  set (t := trim_trailing_zeros f) in *.
  assert (Hl : String.length f = (String.length t + k)%nat).
  { rewrite Hk at 1. now rewrite length_app, length_zeros. }
  split; [lia |].
  unfold padEnd0. rewrite digits_acc_app, digits_acc_zeros.
  rewrite Hk at 1. rewrite digits_acc_app, digits_acc_zeros.
  rewrite Hl. rewrite <- Z.mul_assoc, <- Z.pow_add_r by lia.
  do 2 f_equal. lia.
Qed.

Lemma parseEther_numeral (rn : string -> Z) ip fp :
  wellFormedNumeral ip fp = true ->
  Viem.parseEther rn (decimalNumeral ip fp) = Ok (baseUnits ip fp).
Proof.
  intros Hwf. pose proof (numeral_matches ip fp Hwf) as Hm.
  unfold wellFormedNumeral in Hwf.
  apply andb_true_iff in Hwf. destruct Hwf as [Hip Hfp].
  unfold Viem.parseEther, Viem.parseUnits.
  rewrite Hm, (numeral_split ip fp Hip), (digits_not_negative ip Hip).
  cbn [negb Nat.eqb].
  unfold baseUnits, BigInt_of_digits.
  destruct fp as [f |].
  - apply andb_true_iff in Hfp. destruct Hfp as [_ Hlen].
    apply Nat.leb_le in Hlen.
    destruct (padded_fraction_value f Hlen) as [Ht Hv].
    assert (Hlt : Nat.ltb 18 (String.length (trim_trailing_zeros f)) = false)
      by (apply Nat.ltb_ge; exact Ht).
    rewrite Hlt.
    rewrite digits_acc_app, digits_acc_shift, Hv.
    unfold padEnd0. rewrite length_app, length_zeros.
    replace (Z.of_nat (String.length (trim_trailing_zeros f)
                       + (18 - String.length (trim_trailing_zeros f)))) with 18 by lia.
    reflexivity.
  - change (trim_trailing_zeros "0") with EmptyString.
    cbn [String.length Nat.ltb Nat.leb padEnd0 Nat.sub].
    rewrite digits_acc_app.
    change (padEnd0 18 "") with (zeros 18).
    rewrite digits_acc_zeros. change (Z.of_nat 18) with 18. f_equal. lia.
Qed.

Lemma round_double_exact z : Z.abs z < 2 ^ 53 -> round_double z = z.
Proof.
  intros H. unfold round_double.
  assert (Hb : (Z.log2 (Z.abs z) + 1 <=? 53) = true).
  { apply Z.leb_le.
    destruct (Z.eq_dec (Z.abs z) 0) as [-> | Hnz]; [cbn; lia |].
    assert (Z.log2 (Z.abs z) < 53) by (apply Z.log2_lt_pow2; lia). lia. }
  now rewrite Hb.
Qed.

End Conversions.

(** C8.  [createEscrow] converts before it submits: a price string that
    [parsePrice] rejects is rethrown and nothing is submitted; otherwise the
    transaction carries the parsed price and the product of the hours by
    3600.  For a price written as digits, optionally followed by a dot and
    at most 18 digits, and a whole number of hours whose number of seconds
    is a safe integer, the price submitted is the value times 10^18 and the
    duration is hours times 3600.  The price "1.5" becomes
    1500000000000000000, which [formatPrice] prints as "1.5". *)
Theorem createEscrow_converts_units :
  forall (Math_round_Number : string -> Z) (w : World) (h : list Event)
         (params : EscrowLib.CreateEscrowParams),
    let request price duration :=
      {| w_address := NFT_ESCROW_CONTRACT_ADDRESS;
         w_functionName := "createEscrow";
         w_args := [AAddress (EscrowLib.p_seller params);
                    AAddress (EscrowLib.p_buyer params);
                    AAddress (EscrowLib.p_nftContract params);
                    AUint (EscrowLib.p_tokenId params);
                    AUint price;
                    AUint duration;
                    ABytes32 (EscrowLib.conversationIdToBytes32
                                (EscrowLib.p_conversationId params));
                    AString (match EscrowLib.p_ipfsMetadata params with
                             | Some s => s
                             | None => ""
                             end)];
         w_value := None |} in
    let submitted request :=
      match wallet_writeContract w h request with
      | Ok hash => ([EvWriteContract request (Ok hash)], Ok hash)
      | Throw e =>
          ([EvWriteContract request (Throw e);
            EvConsoleError "Error creating escrow:"], Throw e)
      end in
    EscrowLib.createEscrow Math_round_Number params w h
    = match EscrowLib.parsePrice Math_round_Number (EscrowLib.p_priceEth params) with
      | Throw e => ([EvConsoleError "Error creating escrow:"], Throw e)
      | Ok price =>
          submitted (request price (JS.Number_mul (EscrowLib.p_durationHours params) 3600))
      end
    /\ (forall (ip : string) (fp : option string),
          wellFormedNumeral ip fp = true ->
          EscrowLib.p_priceEth params = decimalNumeral ip fp ->
          Z.abs (EscrowLib.p_durationHours params * 3600) < 2 ^ 53 ->
          EscrowLib.createEscrow Math_round_Number params w h
          = submitted (request (baseUnits ip fp)
                               (EscrowLib.p_durationHours params * 3600)))
    /\ EscrowLib.parsePrice Math_round_Number "1.5" = Ok 1500000000000000000
    /\ EscrowLib.formatPrice 1500000000000000000 = "1.5".
Proof.
  intros rn w h params request submitted.
  assert (Hgen :
    EscrowLib.createEscrow rn params w h
    = match EscrowLib.parsePrice rn (EscrowLib.p_priceEth params) with
      | Throw e => ([EvConsoleError "Error creating escrow:"], Throw e)
      | Ok price =>
          submitted (request price (JS.Number_mul (EscrowLib.p_durationHours params) 3600))
      end).
  { subst request submitted.
    unfold EscrowLib.createEscrow, try_catch, bind, lift, writeContract.
    destruct (EscrowLib.parsePrice rn (EscrowLib.p_priceEth params)) as [price | e];
      [| reflexivity].
    cbv beta iota zeta. rewrite app_nil_r.
    destruct (wallet_writeContract w h _) as [hash | e]; reflexivity. }
  split; [exact Hgen |]. split; [| split; reflexivity].
  intros ip fp Hwf Hprice Hdur. rewrite Hgen.
  unfold EscrowLib.parsePrice, JS.Number_mul.
  rewrite Hprice, (parseEther_numeral rn ip fp Hwf), (round_double_exact _ Hdur).
  reflexivity.
Qed.

Lemma createEscrow_converts_units_witness :
  let w := constantWorld (Ok (sampleEscrow CREATED 1700003600 0)) (Ok "0x01") (Ok tt) in
  (wellFormedNumeral "1" (Some "5") = true
   /\ EscrowLib.p_priceEth sampleParams = decimalNumeral "1" (Some "5")
   /\ Z.abs (EscrowLib.p_durationHours sampleParams * 3600) < 2 ^ 53)
  /\ fst (EscrowLib.createEscrow (fun _ => 0) sampleParams w [])
     = [EvWriteContract
          {| w_address := NFT_ESCROW_CONTRACT_ADDRESS;
             w_functionName := "createEscrow";
             w_args := [AAddress "0xAbCdEf0000000000000000000000000000000001";
                        AAddress "0x00000000000000000000000000000000000000b2";
                        AAddress "0x00000000000000000000000000000000000000c3";
                        AUint 42;
                        AUint 1500000000000000000;
                        AUint 86400;
                        ABytes32 "0x646d3a3166326500000000000000000000000000000000000000000000000000";
                        AString ""];
             w_value := None |}
          (Ok "0x01")].
Proof.
  cbv zeta. split; [repeat split; reflexivity |].
  rewrite (proj1 (proj2 (createEscrow_converts_units (fun _ => 0)
             (constantWorld (Ok (sampleEscrow CREATED 1700003600 0)) (Ok "0x01") (Ok tt))
             [] sampleParams)) "1" (Some "5") eq_refl eq_refl eq_refl).
  reflexivity.
Defined.

(** ** Escrow numbers within a conversation *)

Section EscrowNumbers.
Import JSArray.

Lemma insert_below_last s :
  forall x n, x <= n -> insert_by ownKey x (s ++ [n]) = insert_by ownKey x s ++ [n].
Proof.
  induction s as [| y s IH]; intros x n Hx; cbn.
  - unfold ownKey. destruct (Z.leb_spec x n); [reflexivity | lia].
  - destruct (ownKey x <=? ownKey y); [reflexivity |].
    cbn. now rewrite IH.
Qed.

Lemma sort_append_largest l :
  forall n, Forall (fun x => x <= n) l ->
            sort_by ownKey (l ++ [n]) = sort_by ownKey l ++ [n].
Proof.
  induction l as [| x l IH]; intros n H; [reflexivity |].
  inversion H; subst. cbn. rewrite IH by assumption.
  now apply insert_below_last.
Qed.

Lemma In_insert_by x y l : In y (insert_by ownKey x l) <-> y = x \/ In y l.
Proof.
  induction l as [| z l IH]; cbn.
  - intuition congruence.
  - destruct (ownKey x <=? ownKey z); cbn; [intuition congruence |].
    rewrite IH. intuition congruence.
Qed.

Lemma In_sort_by y l : In y (sort_by ownKey l) <-> In y l.
Proof.
  induction l as [| x l IH]; cbn; [tauto |].
  rewrite In_insert_by, IH. intuition congruence.
Qed.

Lemma position_nonneg x l : 0 <= Spec.position x l.
Proof.
  induction l as [| y l IH]; cbn; [lia |].
  destruct (y =? x); [lia |].
  destruct (Spec.position x l); lia.
Qed.

Lemma position_In x l : In x l -> 0 < Spec.position x l.
Proof.
  induction l as [| y l IH]; cbn; [tauto |].
  intros [-> | H].
  - rewrite Z.eqb_refl. lia.
  - destruct (y =? x); [lia |].
    specialize (IH H). destruct (Spec.position x l); lia.
Qed.

Lemma findIndex_position x l :
  forall i, findIndex_from (fun a => a =? x) i l
            = if Spec.position x l =? 0 then -1 else i + Spec.position x l - 1.
Proof.
  induction l as [| y l IH]; intros i; cbn; [reflexivity |].
  destruct (y =? x); [cbn; lia |].
  rewrite IH. pose proof (position_nonneg x l).
  destruct (Spec.position x l) as [| p | p] eqn:Hp; cbn; lia.
Qed.

Lemma position_app_In x l t : In x l -> Spec.position x (l ++ t) = Spec.position x l.
Proof.
  induction l as [| y l IH]; cbn; [tauto |].
  intros H. destruct (Z.eqb_spec y x) as [_ | Hne]; [reflexivity |].
  destruct H as [H | H]; [congruence |]. now rewrite IH.
Qed.

(** What [EscrowStatus] shows is the 1-based position among the sorted
    identifiers. *)
Lemma escrowNumberOf_position ids x :
  In x ids ->
  EscrowStatus.escrowNumberOf ids x = Spec.position x (sort_by ownKey ids).
Proof.
  intros H. unfold EscrowStatus.escrowNumberOf, findIndex.
  rewrite findIndex_position.
  apply In_sort_by, position_In in H.
  destruct (Z.eqb_spec (Spec.position x (sort_by ownKey ids)) 0); [lia |].
  destruct (Z.leb_spec 0 (0 + Spec.position x (sort_by ownKey ids) - 1)); lia.
Qed.

(** ... and it does not change when a later escrow is appended. *)
Lemma escrowNumberOf_stable ids n x :
  In x ids -> Forall (fun y => y <= n) ids ->
  EscrowStatus.escrowNumberOf (ids ++ [n]) x = EscrowStatus.escrowNumberOf ids x.
Proof.
  intros Hx Hn.
  rewrite !escrowNumberOf_position by (try apply in_or_app; auto).
  rewrite sort_append_largest by assumption.
  apply position_app_In. now apply In_sort_by.
Qed.

(** The number in the header of [EscrowModal], the selected index plus one,
    is the same position. *)
Lemma findIndex_by_id x l :
  forall i, findIndex_from (fun e => id e =? x) i l
            = findIndex_from (fun a => a =? x) i (List.map id l).
Proof.
  induction l as [| e l IH]; intros i; cbn; [reflexivity |].
  destruct (id e =? x); [reflexivity | apply IH].
Qed.

Lemma currentEscrowIndex_position sorted x :
  In x (List.map id sorted) ->
  EscrowModal.currentEscrowIndex sorted x + 1 = Spec.position x (List.map id sorted).
Proof.
  intros H. unfold EscrowModal.currentEscrowIndex, findIndex.
  rewrite findIndex_by_id, findIndex_position.
  apply position_In in H.
  destruct (Z.eqb_spec (Spec.position x (List.map id sorted)) 0); [lia |].
  destruct (Z.leb_spec 0 (0 + Spec.position x (List.map id sorted) - 1)); lia.
Qed.

End EscrowNumbers.

(** C4 at a conversation with two escrows.  [getConversationEscrowNumber]
    answers "#1" for every conversation and escrow; for the escrow with
    identifier 9 in a conversation whose escrows are 5 and 9 the position in
    ascending order is 2, which is also what [EscrowStatus] displays. *)
Theorem getConversationEscrowNumber_always_first :
  (forall conversationId escrowId,
      EscrowMessages.getConversationEscrowNumber conversationId escrowId = "#1")
  /\ Spec.position 9 (JSArray.sort_by JSArray.ownKey [5; 9]) = 2
  /\ EscrowStatus.escrowNumberOf [5; 9] 9 = 2
  /\ EscrowMessages.getConversationEscrowNumber "dm:1f2e" 9
     <> ("#" ++ JS.toString10 (Spec.position 9 (JSArray.sort_by JSArray.ownKey [5; 9])))%string.
Proof.
  split; [reflexivity |]. split; [reflexivity |]. split; [reflexivity |].
  vm_compute. discriminate.
Qed.


(** * Further properties of the embedded code *)

(** ** Prices survive printing and parsing *)

Section PriceRoundTrip.
Import JS.

Lemma of_uint_acc_digits d :
  forall acc, digits_acc (Z.pos acc) (NilEmpty.string_of_uint d)
              = Z.pos (Pos.of_uint_acc d acc).
Proof.
  induction d as [| d IH | d IH | d IH | d IH | d IH | d IH | d IH | d IH | d IH | d IH];
    intros acc; cbn [NilEmpty.string_of_uint digits_acc Pos.of_uint_acc];
    [reflexivity | ..];
    rewrite <- IH; f_equal;
    match goal with
    | |- context [digit_value ?c] =>
        let v := eval vm_compute in (digit_value c) in
        change (digit_value c) with v
    end; lia.
Qed.

Lemma of_uint_digits d :
  digits_acc 0 (NilEmpty.string_of_uint d) = Z.of_N (Pos.of_uint d).
Proof.
  induction d as [| d IH | d IH | d IH | d IH | d IH | d IH | d IH | d IH | d IH | d IH];
    cbn [NilEmpty.string_of_uint digits_acc Pos.of_uint];
    [reflexivity | exact IH | ..];
    cbn [Z.of_N]; rewrite <- of_uint_acc_digits; f_equal.
Qed.

Lemma toString10_NilEmpty z :
  toString10 z = NilEmpty.string_of_uint (N.to_uint (Z.to_N z)).
Proof.
  unfold toString10, NilZero.string_of_uint.
  destruct (N.to_uint (Z.to_N z)) eqn:E; try reflexivity.
  destruct (Z.to_N z) as [| p]; [discriminate E |].
  cbn in E. now apply Unsigned.to_uint_nonnil in E.
Qed.

Lemma toString10_value z : 0 <= z -> digits_acc 0 (toString10 z) = z.
Proof.
  intros Hz. rewrite toString10_NilEmpty, of_uint_digits.
  change (Pos.of_uint (N.to_uint (Z.to_N z))) with (N.of_uint (N.to_uint (Z.to_N z))).
  rewrite DecimalN.Unsigned.of_to. lia.
Qed.

Lemma string_of_uint_all_digits d : all_digits (NilEmpty.string_of_uint d) = true.
Proof. induction d; cbn; auto. Qed.

Lemma toString10_all_digits z : all_digits (toString10 z) = true.
Proof. rewrite toString10_NilEmpty. apply string_of_uint_all_digits. Qed.

Lemma all_digits_app a b : all_digits (a ++ b)%string = all_digits a && all_digits b.
Proof.
  induction a as [| c a IH]; [reflexivity |].
  cbn. rewrite IH. now rewrite andb_assoc.
Qed.

Lemma all_digits_zeros n : all_digits (zeros n) = true.
Proof. induction n; cbn; auto. Qed.

Lemma all_digits_trim s : all_digits s = true -> all_digits (trim_trailing_zeros s) = true.
Proof.
  intros H. destruct (trim_zeros s) as [k Hk].
  rewrite Hk, all_digits_app in H. now apply andb_true_iff in H.
Qed.

Lemma substring_split s :
  forall a, (a <= String.length s)%nat ->
            (substring 0 a s ++ substring a (String.length s - a) s)%string = s.
Proof.
  induction s as [| c s IH]; intros [| a] H; cbn in *; try lia.
  - reflexivity.
  - f_equal. clear IH H. induction s as [| d s IHs]; cbn; congruence.
  - f_equal. apply IH. lia.
Qed.

Lemma length_substring0 s :
  forall a, (a <= String.length s)%nat -> String.length (substring 0 a s) = a.
Proof.
  induction s as [| c s IH]; intros [| a] H; cbn in *; try lia.
  f_equal. apply IH. lia.
Qed.

(** A string of at least 18 digits, cut 18 digits before its end and printed
    the way [formatUnits] does, is read back by [parseEther] as the number
    the digits denote. *)
Lemma parse_of_cut_display (rn : string -> Z) display :
  all_digits display = true -> (18 <= String.length display)%nat ->
  let n := String.length display in
  let integer := slice 0 (n - 18) display in
  let fraction := trim_trailing_zeros (slice (n - 18) n display) in
  Viem.parseEther rn
    ((if String.eqb integer "" then "0" else integer)
       ++ (if String.eqb fraction "" then "" else "." ++ fraction))%string
  = Ok (digits_acc 0 display).
Proof.
  intros Hd Hlen n integer fraction.
  set (f18 := slice (n - 18) n display) in *.
  assert (Hsplit : display = (integer ++ f18)%string).
  { subst integer f18. unfold slice. rewrite Nat.sub_0_r.
    symmetry. apply substring_split. subst n. lia. }
  assert (Hli : String.length integer = (n - 18)%nat).
  { subst integer. unfold slice. rewrite Nat.sub_0_r.
    apply length_substring0. subst n. lia. }
  assert (Hlf : String.length f18 = 18%nat).
  { assert (Hn : n = (String.length integer + String.length f18)%nat)
      by (subst n; rewrite Hsplit at 1; apply length_app).
    lia. }
  rewrite Hsplit, all_digits_app in Hd. apply andb_true_iff in Hd.
  destruct Hd as [Hdi Hdf].
  pose proof (all_digits_trim f18 Hdf) as Hdt. fold fraction in Hdt.
  destruct (padded_fraction_value f18 ltac:(lia)) as [Hlt Hval].
  fold fraction in Hlt, Hval.
  rewrite Hlf, Z.sub_diag, Z.pow_0_r, Z.mul_1_r in Hval.
  unfold padEnd0 in Hval. rewrite digits_acc_app, digits_acc_zeros in Hval.
  set (ip := if String.eqb integer "" then "0" else integer).
  set (fp := if String.eqb fraction "" then None else Some fraction).
  assert (Hform :
    (ip ++ (if String.eqb fraction "" then "" else "." ++ fraction))%string
    = decimalNumeral ip fp).
  { subst fp. destruct (String.eqb fraction ""); cbn [decimalNumeral].
    - clear. induction ip; cbn; congruence.
    - reflexivity. }
  rewrite Hform.
  assert (Hip : all_digits ip = true /\ digits_acc 0 ip = digits_acc 0 integer).
  { subst ip. destruct (String.eqb_spec integer "") as [-> | _]; auto. }
  destruct Hip as [Hipd Hipv].
  rewrite parseEther_numeral.
  - f_equal. unfold baseUnits, BigInt_of_digits. rewrite Hipv.
    rewrite Hsplit, digits_acc_app, (digits_acc_shift f18), Hlf.
    change (Z.of_nat 18) with 18. f_equal.
    rewrite <- Hval. subst fp.
    destruct (String.eqb_spec fraction "") as [E | _].
    + rewrite E. cbn. lia.
    + f_equal. f_equal. lia.
  - unfold wellFormedNumeral. rewrite Hipd. subst fp.
    destruct (String.eqb fraction ""); [reflexivity |].
    rewrite Hdt. cbn. apply Nat.leb_le. exact Hlt.
Qed.

End PriceRoundTrip.

(** X1.  Printing a price of base units with [formatPrice] and reading the
    text back with [parsePrice] gives the price again, for every price that
    is not negative. *)
Theorem parsePrice_formatPrice :
  forall (Math_round_Number : string -> Z) (priceWei : Z),
    0 <= priceWei ->
    EscrowLib.parsePrice Math_round_Number (EscrowLib.formatPrice priceWei)
    = Ok priceWei.
Proof.
  intros rn p Hp.
  unfold EscrowLib.parsePrice, EscrowLib.formatPrice, Viem.formatEther, Viem.formatUnits.
  assert (Hneg : (p <? 0) = false) by (apply Z.ltb_ge; exact Hp).
  rewrite Hneg, Z.abs_eq by exact Hp.
  set (display := JS.padStart0 18 (JS.toString10 p)).
  assert (Hd : JS.all_digits display = true).
  { subst display. unfold JS.padStart0.
    now rewrite all_digits_app, all_digits_zeros, toString10_all_digits. }
  assert (Hl : (18 <= String.length display)%nat).
  { subst display. unfold JS.padStart0. rewrite length_app, length_zeros. lia. }
  assert (Hv : JS.digits_acc 0 display = p).
  { subst display. unfold JS.padStart0.
    rewrite digits_acc_app, digits_zeros. now apply toString10_value. }
  transitivity (Ok (A := Z) (JS.digits_acc 0 display));
    [exact (parse_of_cut_display rn display Hd Hl) | now rewrite Hv].
Qed.

Lemma parsePrice_formatPrice_witness :
  0 <= 1234500000000000000000
  /\ EscrowLib.parsePrice (fun _ => 0) (EscrowLib.formatPrice 1234500000000000000000)
     = Ok 1234500000000000000000.
Proof.
  split; [lia |].
  apply (parsePrice_formatPrice (fun _ => 0) 1234500000000000000000). lia.
Defined.

(** ** Depositing the payment from the modal *)

Section DepositPaymentHandler.
Import EscrowLib EscrowModal.
Variable rn : string -> Z.
Variable message : Error -> string.

Lemma handleDepositPayment_run props e (a : Address) (w : World) (h : list Event) :
  0 <= price e -> a <> "" ->
  let h2 := h ++ [EvSetIsLoading true; EvAddToast "Depositing payment..." info] in
  handleDepositPayment rn message props (Some e) (Some a) w h
  = match wallet_writeContract w h2 (depositPaymentRequest e) with
    | Ok hash =>
        ([EvSetIsLoading true; EvAddToast "Depositing payment..." info;
          EvWriteContract (depositPaymentRequest e) (Ok hash)]
           ++ fst (waitAndRefresh props hash (Some FUNDED) w
                     (h2 ++ [EvWriteContract (depositPaymentRequest e) (Ok hash)]))
           ++ [EvAddToast "Payment deposited successfully!" success;
               EvSetIsLoading false],
         Ok tt)
    | Throw err =>
        ([EvSetIsLoading true; EvAddToast "Depositing payment..." info;
          EvWriteContract (depositPaymentRequest e) (Throw err);
          EvConsoleError "Error depositing payment:";
          if JS.includes "User rejected" (message err)
          then EvAddToast "Transaction cancelled by user" warning
          else EvAddToast (if String.eqb (message err) ""
                           then "Failed to deposit payment" else message err) error;
          EvSetIsLoading false],
         Ok tt)
    end.
Proof.
  intros Hp Ha h2. subst h2.
  unfold handleDepositPayment.
  apply String.eqb_neq in Ha. rewrite Ha.
  unfold depositPayment.
  unfold try_finally, try_catch, bind, setIsLoading, addToast, console_error, emit,
    lift, writeContract.
  rewrite (parsePrice_formatPrice rn (price e) Hp).
  cbv beta iota zeta.
  rewrite !app_nil_r. rewrite <- !app_assoc. cbn [app].
  fold (depositPaymentRequest e).
  destruct (wallet_writeContract w _ (depositPaymentRequest e)) as [hash | err].
  - cbv beta iota. rewrite <- ?app_assoc. cbn [app].
    pose proof (waitAndRefresh_returns props hash (Some FUNDED) w
                  (h ++ [EvSetIsLoading true; EvAddToast "Depositing payment..." info;
                         EvWriteContract (depositPaymentRequest e) (Ok hash)])) as Hret.
    destruct (waitAndRefresh props hash (Some FUNDED) w
                (h ++ [EvSetIsLoading true; EvAddToast "Depositing payment..." info;
                       EvWriteContract (depositPaymentRequest e) (Ok hash)]))
      as [tw rw].
    cbn [snd] in Hret. subst rw. cbn [fst app].
    rewrite <- ?app_assoc. reflexivity.
  - cbv beta iota.
    destruct (JS.includes "User rejected" (message err)); reflexivity.
Qed.

End DepositPaymentHandler.

(** ** What a computation emits *)

Section EmitsOnly.
Variable P : Event -> bool.

Lemma emitsOnly_ret {A} (a : A) : emitsOnly P (ret a).
Proof. intros w h. reflexivity. Qed.

Lemma emitsOnly_throw {A} (e : Error) : emitsOnly P (throw (A := A) e).
Proof. intros w h. reflexivity. Qed.

Lemma emitsOnly_lift {A} (r : Result A) : emitsOnly P (lift r).
Proof. intros w h. reflexivity. Qed.

Lemma emitsOnly_emit ev : P ev = true -> emitsOnly P (emit ev).
Proof. intros H w h. cbn. now rewrite H. Qed.

Lemma emitsOnly_bind {A B} (m : M A) (f : A -> M B) :
  emitsOnly P m -> (forall a, emitsOnly P (f a)) -> emitsOnly P (bind m f).
Proof.
  intros Hm Hf w h. unfold bind.
  specialize (Hm w h). destruct (m w h) as [t1 [a | e]]; cbn [fst] in *; [| exact Hm].
  specialize (Hf a w (h ++ t1)). destruct (f a w (h ++ t1)) as [t2 r2].
  cbn [fst] in *. rewrite forallb_app, Hm, Hf. reflexivity.
Qed.

Lemma emitsOnly_try_catch {A} (m : M A) (handler : Error -> M A) :
  emitsOnly P m -> (forall e, emitsOnly P (handler e)) ->
  emitsOnly P (try_catch m handler).
Proof.
  intros Hm Hf w h. unfold try_catch.
  specialize (Hm w h). destruct (m w h) as [t1 [a | e]]; cbn [fst] in *; [exact Hm |].
  specialize (Hf e w (h ++ t1)). destruct (handler e w (h ++ t1)) as [t2 r2].
  cbn [fst] in *. rewrite forallb_app, Hm, Hf. reflexivity.
Qed.

Lemma emitsOnly_try_finally {A} (m : M A) (cleanup : M unit) :
  emitsOnly P m -> emitsOnly P cleanup -> emitsOnly P (try_finally m cleanup).
Proof.
  intros Hm Hc w h. unfold try_finally.
  specialize (Hm w h). destruct (m w h) as [t1 r].
  specialize (Hc w (h ++ t1)). destruct (cleanup w (h ++ t1)) as [t2 r2].
  cbn [fst] in *. rewrite forallb_app, Hm, Hc. reflexivity.
Qed.

End EmitsOnly.

Section ReadOnly.
Import EscrowLib EscrowModal.

Lemma getEscrow_no_write i : emitsOnly notWrite (getEscrow i).
Proof.
  intros w h. rewrite getEscrow_run.
  destruct (chain_getEscrow w h i); reflexivity.
Qed.

Lemma poll_no_write rounds :
  forall attempt i st delayMs,
    emitsOnly notWrite (waitForEscrowStateChange_loop rounds attempt i st delayMs).
Proof.
  induction rounds as [| n IH]; intros attempt i st delayMs.
  - apply emitsOnly_ret.
  - cbn [waitForEscrowStateChange_loop]. apply emitsOnly_bind.
    + intros w h. rewrite attempt_run.
      destruct (chain_getEscrow w h i) as [r | e]; [| reflexivity].
      destruct (EscrowState_eqb (state r) st); reflexivity.
    + intros [b |]; [apply emitsOnly_ret | apply IH].
Qed.

Lemma loadEscrowData_no_write props : emitsOnly notWrite (loadEscrowData props).
Proof.
  unfold loadEscrowData.
  destruct (escrowId props) as [i |]; [| apply emitsOnly_ret].
  destruct (JS.truthy_bigint i); [| apply emitsOnly_ret].
  apply emitsOnly_bind; [now apply emitsOnly_emit |]. intros _.
  apply emitsOnly_try_finally; [| now apply emitsOnly_emit].
  apply emitsOnly_try_catch.
  - apply emitsOnly_bind; [apply getEscrow_no_write |].
    intros v. now apply emitsOnly_emit.
  - intros e. apply emitsOnly_bind; [now apply emitsOnly_emit |].
    intros _. now apply emitsOnly_emit.
Qed.

Lemma waitAndRefresh_no_write props hash expectedState :
  emitsOnly notWrite (waitAndRefresh props hash expectedState).
Proof.
  unfold waitAndRefresh. apply emitsOnly_try_catch.
  - apply emitsOnly_bind.
    { intros w h. reflexivity. }
    intros _. apply emitsOnly_bind.
    { destruct expectedState as [st |]; [| now apply emitsOnly_emit].
      destruct (escrowId props) as [i |]; [| now apply emitsOnly_emit].
      destruct (truthy_state (Some st) && JS.truthy_bigint i);
        [| now apply emitsOnly_emit].
      apply emitsOnly_bind; [apply poll_no_write |].
      intros b. destruct (negb b); [now apply emitsOnly_emit | apply emitsOnly_ret]. }
    intros _. apply emitsOnly_bind; [apply loadEscrowData_no_write |].
    intros _. destruct (onEscrowUpdated props); [| apply emitsOnly_ret].
    intros w h. reflexivity.
  - intros e. apply emitsOnly_bind; [now apply emitsOnly_emit |].
    intros _. now apply emitsOnly_emit.
Qed.

Lemma no_write_filter t : forallb notWrite t = true -> List.filter isWrite t = [].
Proof.
  induction t as [| ev t IH]; [reflexivity |]. cbn. unfold notWrite at 1.
  destruct (isWrite ev); cbn; [discriminate | exact IH].
Qed.

End ReadOnly.

(** X2.  Waiting for a transaction and refreshing never submits anything to
    the wallet: neither the polling loop, nor the reload of the escrow, nor
    [waitAndRefresh] as a whole emits a [writeContract], in any world. *)
Theorem waitAndRefresh_submits_nothing :
  forall (w : World) (h : list Event) (props : EscrowModal.Props) (hash : Hash)
         (expectedState : option EscrowState) (i : Z) (st : EscrowState)
         (maxAttempts delayMs : Z),
    List.filter isWrite (fst (EscrowModal.waitAndRefresh props hash expectedState w h)) = []
    /\ List.filter isWrite
         (fst (EscrowLib.waitForEscrowStateChange i st maxAttempts delayMs w h)) = []
    /\ List.filter isWrite (fst (EscrowModal.loadEscrowData props w h)) = [].
Proof.
  intros w h props hash expectedState i st maxAttempts delayMs.
  split; [| split]; apply no_write_filter.
  - apply waitAndRefresh_no_write.
  - apply poll_no_write.
  - apply loadEscrowData_no_write.
Qed.

(** X3.  For an escrow whose price is not negative and a connected address,
    [handleDepositPayment] submits exactly one transaction: [depositPayment]
    for the escrow's identifier, to the escrow contract, with exactly the
    escrow's price attached. *)
Theorem handleDepositPayment_pays_the_price :
  forall (Math_round_Number : string -> Z) (message : Error -> string)
         (w : World) (h : list Event) (props : EscrowModal.Props)
         (e : Escrow) (a : Address),
    0 <= price e -> a <> "" ->
    exists reply,
      List.filter isWrite
        (fst (EscrowModal.handleDepositPayment Math_round_Number message props
                (Some e) (Some a) w h))
      = [EvWriteContract
           {| w_address := NFT_ESCROW_CONTRACT_ADDRESS;
              w_functionName := "depositPayment";
              w_args := [AUint (id e)];
              w_value := Some (price e) |} reply].
Proof.
  intros rn message w h props e a Hp Ha.
  pose proof (handleDepositPayment_run rn message props e a w h Hp Ha) as Hrun.
  cbv zeta in Hrun. rewrite Hrun. clear Hrun.
  destruct (wallet_writeContract w _ (depositPaymentRequest e)) as [hash | err].
  - exists (Ok hash). cbn [fst app List.filter isWrite].
    rewrite filter_app.
    rewrite (no_write_filter _ (waitAndRefresh_no_write props hash (Some FUNDED) w _)).
    reflexivity.
  - exists (Throw err). cbn [fst List.filter isWrite].
    destruct (JS.includes "User rejected" (message err)); reflexivity.
Qed.

Lemma handleDepositPayment_pays_the_price_witness :
  let e := sampleEscrow CREATED 1700003600 0 in
  let w := constantWorld (Ok e) (Ok "0x01") (Ok tt) in
  let props := {| EscrowModal.escrowId := Some 7;
                  EscrowModal.conversationId := "dm:1f2e";
                  EscrowModal.onEscrowUpdated := false |} in
  (0 <= price e /\ "0x00000000000000000000000000000000000000b2" <> "")
  /\ exists reply,
      List.filter isWrite
        (fst (EscrowModal.handleDepositPayment (fun _ => 0) (fun _ => "") props
                (Some e) (Some "0x00000000000000000000000000000000000000b2") w []))
      = [EvWriteContract
           {| w_address := NFT_ESCROW_CONTRACT_ADDRESS;
              w_functionName := "depositPayment";
              w_args := [AUint 7];
              w_value := Some 1500000000000000000 |} reply].
Proof.
  cbv zeta. split; [split; [cbn; lia | discriminate] |].
  apply (handleDepositPayment_pays_the_price (fun _ => 0) (fun _ => "")
           (constantWorld (Ok (sampleEscrow CREATED 1700003600 0)) (Ok "0x01") (Ok tt))
           [] _ (sampleEscrow CREATED 1700003600 0)
           "0x00000000000000000000000000000000000000b2").
  - cbn. lia.
  - discriminate.
Defined.

(** X4.  [handleDepositPayment] never throws and always clears the loading
    flag last.  When the wallet refuses the transaction nothing is awaited
    or read: one warning (the text of the exception contains "User
    rejected") or one error toast follows.  When the wallet returns a hash
    the success toast is always shown, whatever the wait for the receipt
    and the polling produced; the success toast is shown in no other case. *)
Theorem handleDepositPayment_settles :
  forall (Math_round_Number : string -> Z) (message : Error -> string)
         (w : World) (h : list Event) (props : EscrowModal.Props)
         (e : Escrow) (a : Address),
    0 <= price e -> a <> "" ->
    let run := EscrowModal.handleDepositPayment Math_round_Number message props
                 (Some e) (Some a) w h in
    let started := [EvSetIsLoading true; EvAddToast "Depositing payment..." info] in
    let reply := wallet_writeContract w (h ++ started) (depositPaymentRequest e) in
    snd run = Ok tt
    /\ (exists t, fst run = t ++ [EvSetIsLoading false])
    /\ match reply with
       | Ok hash =>
           exists t,
             fst run
             = started ++ [EvWriteContract (depositPaymentRequest e) (Ok hash)] ++ t
               ++ [EvAddToast "Payment deposited successfully!" success;
                   EvSetIsLoading false]
       | Throw err =>
           fst run
           = started
             ++ [EvWriteContract (depositPaymentRequest e) (Throw err);
                 EvConsoleError "Error depositing payment:";
                 if JS.includes "User rejected" (message err)
                 then EvAddToast "Transaction cancelled by user" warning
                 else EvAddToast (if String.eqb (message err) ""
                                  then "Failed to deposit payment"
                                  else message err) error;
                 EvSetIsLoading false]
       end
    /\ (existsb (isToastOf success) (fst run) = true <-> exists hash, reply = Ok hash).
Proof.
  intros rn message w h props e a Hp Ha run started reply.
  pose proof (handleDepositPayment_run rn message props e a w h Hp Ha) as Hrun.
  cbv zeta in Hrun. subst run started reply. rewrite Hrun. clear Hrun.
  destruct (wallet_writeContract w _ (depositPaymentRequest e)) as [hash | err].
  - cbn [fst snd]. split; [reflexivity |]. split; [| split].
    + eexists. rewrite !app_assoc.
      change [EvAddToast "Payment deposited successfully!" success; EvSetIsLoading false]
        with ([EvAddToast "Payment deposited successfully!" success]
                ++ [EvSetIsLoading false]).
      rewrite !app_assoc. reflexivity.
    + eexists. reflexivity.
    + split; [intros _; now exists hash |]. intros _.
      cbn [app existsb isToastOf orb]. rewrite existsb_app. cbn.
      apply orb_true_r.
  - cbn [fst snd]. split; [reflexivity |]. split; [| split].
    + eexists. cbn [app].
      change [EvSetIsLoading true; EvAddToast "Depositing payment..." info;
              EvWriteContract (depositPaymentRequest e) (Throw err);
              EvConsoleError "Error depositing payment:";
              (if JS.includes "User rejected" (message err)
               then EvAddToast "Transaction cancelled by user" warning
               else EvAddToast (if String.eqb (message err) ""
                                then "Failed to deposit payment"
                                else message err) error);
              EvSetIsLoading false]
        with ([EvSetIsLoading true; EvAddToast "Depositing payment..." info;
              EvWriteContract (depositPaymentRequest e) (Throw err);
              EvConsoleError "Error depositing payment:";
              (if JS.includes "User rejected" (message err)
               then EvAddToast "Transaction cancelled by user" warning
               else EvAddToast (if String.eqb (message err) ""
                                then "Failed to deposit payment"
                                else message err) error)] ++ [EvSetIsLoading false]).
      reflexivity.
    + reflexivity.
    + split; [| intros [hash Hh]; discriminate Hh].
      destruct (JS.includes "User rejected" (message err)); cbn; discriminate.
Qed.

Lemma handleDepositPayment_settles_witness :
  let e := sampleEscrow CREATED 1700003600 0 in
  let w := constantWorld (Ok e) (Throw UserRejectedRequestError) (Ok tt) in
  let props := {| EscrowModal.escrowId := Some 7;
                  EscrowModal.conversationId := "dm:1f2e";
                  EscrowModal.onEscrowUpdated := false |} in
  (0 <= price e /\ "0x00000000000000000000000000000000000000b2" <> "")
  /\ snd (EscrowModal.handleDepositPayment (fun _ => 0)
            (fun _ => "User rejected the request.") props
            (Some e) (Some "0x00000000000000000000000000000000000000b2") w [])
     = Ok tt.
Proof.
  cbv zeta. split; [split; [cbn; lia | discriminate] |].
  refine (proj1 (handleDepositPayment_settles (fun _ => 0)
                   (fun _ => "User rejected the request.")
                   (constantWorld (Ok (sampleEscrow CREATED 1700003600 0))
                      (Throw UserRejectedRequestError) (Ok tt))
                   [] _ (sampleEscrow CREATED 1700003600 0)
                   "0x00000000000000000000000000000000000000b2" _ _)).
  - cbn. lia.
  - discriminate.
Defined.

(** ** What the permission predicates imply together *)

(** X5.  The "actions available" indicator of the status card is on exactly
    when the user may cancel: for every escrow, clock reading and user,
    [hasAvailableActions] equals [canUserCancelEscrow].  In particular it is
    off in the DISPUTED state, where the modal still offers "Cancel Expired
    Escrow" to either party once the deadline has passed. *)
Theorem hasAvailableActions_is_canUserCancelEscrow :
  forall (now : Z) (e : Escrow) (u : Address),
    EscrowStatus.hasAvailableActions now e u = EscrowLib.canUserCancelEscrow e u
    /\ (state e = DISPUTED ->
        EscrowStatus.hasAvailableActions now e u = false
        /\ EscrowModal.showsCancelExpired now e u
           = (EscrowLib.sameAddress (buyer e) u || EscrowLib.sameAddress (seller e) u)
             && EscrowLib.isEscrowExpired now e).
Proof.
  intros now e u.
  unfold EscrowStatus.hasAvailableActions, EscrowLib.canUserFundEscrow,
    EscrowLib.canUserDepositNFT, EscrowLib.canUserCompleteEscrow,
    EscrowLib.canUserCancelEscrow, EscrowLib.canUserRaiseDispute,
    EscrowModal.showsCancelExpired, EscrowModal.userRole.
  split.
  - destruct (state e), (EscrowLib.sameAddress (buyer e) u),
      (EscrowLib.sameAddress (seller e) u), (EscrowLib.isEscrowExpired now e);
      reflexivity.
  - intros ->.
    destruct (EscrowLib.sameAddress (buyer e) u),
      (EscrowLib.sameAddress (seller e) u), (EscrowLib.isEscrowExpired now e);
      split; reflexivity.
Qed.

(** X6.  Nothing is offered on a finished escrow or to a stranger: when the
    state is COMPLETED or CANCELLED, or the user is neither the seller nor
    the buyer, all five predicates and the cancel-expired button are off,
    at every clock reading. *)
Theorem nothing_offered_when_finished_or_stranger :
  forall (now : Z) (e : Escrow) (u : Address) (a : Spec.Action),
    Spec.terminal (state e) = true \/ EscrowModal.userRole e u = None ->
    permitted now e u a = false.
Proof.
  intros now e u a H.
  unfold EscrowModal.userRole in H.
  destruct a; cbn [permitted];
    unfold EscrowLib.canUserFundEscrow, EscrowLib.canUserDepositNFT,
      EscrowLib.canUserCompleteEscrow, EscrowLib.canUserCancelEscrow,
      EscrowLib.canUserRaiseDispute, EscrowModal.showsCancelExpired,
      EscrowModal.userRole;
    destruct (state e), (EscrowLib.sameAddress (buyer e) u),
      (EscrowLib.sameAddress (seller e) u), (EscrowLib.isEscrowExpired now e);
    cbn in *; try reflexivity; destruct H; discriminate.
Qed.

Lemma nothing_offered_when_finished_or_stranger_witness :
  (Spec.terminal (state (sampleEscrow COMPLETED 1700003600 0)) = true
   \/ EscrowModal.userRole (sampleEscrow COMPLETED 1700003600 0)
        "0x00000000000000000000000000000000000000b2" = None)
  /\ permitted 1700000000000 (sampleEscrow COMPLETED 1700003600 0)
       "0x00000000000000000000000000000000000000b2" Spec.Cancel = false.
Proof.
  split; [left; reflexivity |].
  apply (nothing_offered_when_finished_or_stranger 1700000000000
           (sampleEscrow COMPLETED 1700003600 0)
           "0x00000000000000000000000000000000000000b2" Spec.Cancel).
  left. reflexivity.
Defined.

(** X7.  Expiry is permanent and closes the deposit and dispute paths: once
    [isEscrowExpired] holds it holds at every later clock reading, and from
    then on [canUserFundEscrow], [canUserDepositNFT] and
    [canUserRaiseDispute] are false for every user, while [getNextAction]
    answers with the completed, cancelled, dispute-expired or
    escrow-expired text. *)
Theorem expiry_is_permanent_and_closes_deposits :
  forall (now now' : Z) (e : Escrow) (u : Address),
    EscrowLib.isEscrowExpired now e = true -> now <= now' ->
    EscrowLib.isEscrowExpired now' e = true
    /\ EscrowLib.canUserFundEscrow now' e u = false
    /\ EscrowLib.canUserDepositNFT now' e u = false
    /\ EscrowLib.canUserRaiseDispute now' e u = false
    /\ In (EscrowLib.getNextAction now' e u)
         ["Escrow completed successfully"; "Escrow was cancelled";
          "Dispute expired - can be auto-resolved";
          "Escrow expired - funds can be refunded"].
Proof.
  intros now now' e u Hx Hle.
  assert (Hx' : EscrowLib.isEscrowExpired now' e = true).
  { unfold EscrowLib.isEscrowExpired in *. apply Z.ltb_lt in Hx. apply Z.ltb_lt. lia. }
  split; [exact Hx' |].
  unfold EscrowLib.canUserFundEscrow, EscrowLib.canUserDepositNFT,
    EscrowLib.canUserRaiseDispute, EscrowLib.getNextAction.
  rewrite Hx'.
  repeat split; try (now rewrite !andb_false_r).
  destruct (state e); cbn; auto 6.
Qed.

Lemma expiry_is_permanent_and_closes_deposits_witness :
  (EscrowLib.isEscrowExpired 1700003600001 (sampleEscrow CREATED 1700003600 0) = true
   /\ 1700003600001 <= 1700009999000)
  /\ EscrowLib.canUserFundEscrow 1700009999000 (sampleEscrow CREATED 1700003600 0)
       "0x00000000000000000000000000000000000000b2" = false.
Proof.
  split; [split; [reflexivity | lia] |].
  refine (proj1 (proj2 (expiry_is_permanent_and_closes_deposits
            1700003600001 1700009999000 (sampleEscrow CREATED 1700003600 0)
            "0x00000000000000000000000000000000000000b2" eq_refl _))).
  lia.
Defined.

(** X8.  Guidance and buttons, as the code relates them.  Whenever the fund
    button is shown the guidance reads "Deposit payment to continue";
    whenever the guidance tells the seller to deposit the NFT, or the buyer
    to complete, the corresponding button is shown.  The guidance "Deposit
    payment to activate escrow" (NFT deposited first) is given only in the
    NFT_DEPOSITED state, where the fund button is not shown. *)
Theorem guidance_and_buttons :
  forall (now : Z) (e : Escrow) (u : Address),
    (EscrowLib.canUserFundEscrow now e u = true ->
     EscrowLib.getNextAction now e u = "Deposit payment to continue")
    /\ (EscrowLib.getNextAction now e u = "Deposit your NFT to activate escrow" ->
        EscrowLib.canUserDepositNFT now e u = true)
    /\ (EscrowLib.getNextAction now e u = "Complete escrow to receive NFT" ->
        EscrowLib.canUserCompleteEscrow e u = true)
    /\ (EscrowLib.getNextAction now e u = "Deposit payment to activate escrow" ->
        state e = NFT_DEPOSITED /\ EscrowLib.canUserFundEscrow now e u = false).
Proof.
  intros now e u.
  unfold EscrowLib.canUserFundEscrow, EscrowLib.canUserDepositNFT,
    EscrowLib.canUserCompleteEscrow, EscrowLib.getNextAction.
  destruct (state e), (EscrowLib.sameAddress (buyer e) u),
    (EscrowLib.sameAddress (seller e) u), (EscrowLib.isEscrowExpired now e);
    cbn; repeat split; intros; try reflexivity; discriminate.
Qed.

(** ** The list of escrows of a conversation in the modal *)

Section SortBy.
Import JSArray.
Context {A : Type} (key : A -> Z).





End SortBy.

Section ModalList.
Import JSArray EscrowModal.


Lemma position_nth x l :
  0 < Spec.position x l ->
  nth_error l (Z.to_nat (Spec.position x l - 1)) = Some x.
Proof.
  induction l as [| y l IH]; cbn [Spec.position]; [lia |].
  destruct (Z.eqb_spec y x) as [-> | Hne]; [reflexivity |].
  pose proof (position_nonneg x l) as Hnn.
  destruct (Spec.position x l) as [| p | p] eqn:Hp; try lia.
  intros _.
  replace (Z.to_nat (Z.pos p + 1 - 1)) with (S (Z.to_nat (Z.pos p - 1))) by lia.
  cbn [nth_error]. apply IH. lia.
Qed.

Lemma position_absent x l : ~ In x l -> Spec.position x l = 0.
Proof.
  intros H. pose proof (position_nonneg x l) as Hnn.
  destruct (Z.eq_dec (Spec.position x l) 0) as [E | E]; [exact E |].
  exfalso. apply H. eapply nth_error_In. apply position_nth. lia.
Qed.

Lemma position_le_length x l : Spec.position x l <= Z.of_nat (List.length l).
Proof.
  induction l as [| y l IH]; cbn [Spec.position List.length]; [lia |].
  destruct (y =? x); [lia |].
  destruct (Spec.position x l); lia.
Qed.

End ModalList.


(** X10.  The index selected when the modal opens is a valid index of a
    non-empty list; when an escrow with the requested identifier is in the
    list the index points at it, otherwise the index is 0. *)
Theorem currentEscrowIndex_selects :
  forall (sorted : list Escrow) (selected : Z),
    let index := EscrowModal.currentEscrowIndex sorted selected in
    0 <= index
    /\ (sorted <> [] -> index < Z.of_nat (List.length sorted))
    /\ (In selected (List.map id sorted) ->
        exists e, EscrowModal.at_index sorted index = Some e /\ id e = selected)
    /\ (~ In selected (List.map id sorted) -> index = 0).
Proof.
  intros sorted selected index.
  destruct (in_dec Z.eq_dec selected (List.map id sorted)) as [Hin | Hout].
  - pose proof (currentEscrowIndex_position sorted selected Hin) as Hpos.
    fold index in Hpos.
    pose proof (position_In _ _ Hin) as Hgt.
    pose proof (position_le_length selected (List.map id sorted)) as Hle.
    rewrite length_map in Hle.
    split; [lia |]. split; [lia |]. split; [| tauto].
    intros _. pose proof (position_nth _ _ Hgt) as Hnth.
    rewrite <- Hpos in Hnth. replace (index + 1 - 1) with index in Hnth by lia.
    rewrite nth_error_map in Hnth.
    unfold EscrowModal.at_index.
    destruct (Z.ltb_spec index 0); [lia |].
    destruct (nth_error sorted (Z.to_nat index)) as [e |]; [| discriminate Hnth].
    exists e. split; [reflexivity |]. cbn in Hnth. congruence.
  - assert (Hz : index = 0).
    { subst index. unfold EscrowModal.currentEscrowIndex, JSArray.findIndex.
      rewrite findIndex_by_id, findIndex_position, (position_absent _ _ Hout).
      reflexivity. }
    rewrite Hz. split; [lia |]. split; [| tauto].
    intros Hne. destruct sorted; [congruence | cbn; lia].
Qed.

Section Navigation.
Import EscrowModal.

Lemma navigation_keeps_list d s :
  allEscrows (handleEscrowNavigation d s) = allEscrows s.
Proof.
  unfold handleEscrowNavigation.
  destruct (Z.of_nat (List.length (allEscrows s)) <=? 1); reflexivity.
Qed.

Lemma navigation_index d s :
  selectedIndex (handleEscrowNavigation d s)
  = let len := Z.of_nat (List.length (allEscrows s)) in
    if len <=? 1 then selectedIndex s
    else match d with
         | prev => if 0 <? selectedIndex s then selectedIndex s - 1 else len - 1
         | next => if selectedIndex s <? len - 1 then selectedIndex s + 1 else 0
         end.
Proof.
  unfold handleEscrowNavigation. cbv zeta.
  destruct (Z.of_nat (List.length (allEscrows s)) <=? 1); reflexivity.
Qed.

Lemma navigation_shown d s :
  1 < Z.of_nat (List.length (allEscrows s)) ->
  shownEscrow (handleEscrowNavigation d s)
  = at_index (allEscrows s) (selectedIndex (handleEscrowNavigation d s)).
Proof.
  intros H. unfold handleEscrowNavigation.
  destruct (Z.leb_spec (Z.of_nat (List.length (allEscrows s))) 1); [lia |].
  reflexivity.
Qed.

Lemma at_index_in_range (l : list Escrow) j :
  0 <= j < Z.of_nat (List.length l) ->
  exists e, at_index l j = Some e /\ nth_error l (Z.to_nat j) = Some e.
Proof.
  intros Hj. unfold at_index.
  destruct (Z.ltb_spec j 0); [lia |].
  destruct (nth_error l (Z.to_nat j)) as [e |] eqn:E; [now exists e |].
  apply nth_error_None in E. lia.
Qed.

End Navigation.

(** X11.  Navigation between the escrows of a conversation stays inside the
    list and wraps around: from a valid index, "next" and "prev" give a
    valid index and show the escrow stored there, each undoes the other,
    and with at most one escrow navigation changes nothing. *)
Theorem handleEscrowNavigation_cycles :
  forall (s : EscrowModal.ModalState) (d : EscrowModal.Direction),
    let len := Z.of_nat (List.length (EscrowModal.allEscrows s)) in
    0 <= EscrowModal.selectedIndex s < len ->
    let s' := EscrowModal.handleEscrowNavigation d s in
    EscrowModal.allEscrows s' = EscrowModal.allEscrows s
    /\ 0 <= EscrowModal.selectedIndex s' < len
    /\ (1 < len ->
        EscrowModal.selectedIndex s' <> EscrowModal.selectedIndex s
        /\ exists e, EscrowModal.shownEscrow s' = Some e
                     /\ nth_error (EscrowModal.allEscrows s)
                          (Z.to_nat (EscrowModal.selectedIndex s')) = Some e)
    /\ (len <= 1 -> s' = s)
    /\ EscrowModal.selectedIndex
         (EscrowModal.handleEscrowNavigation EscrowModal.prev
            (EscrowModal.handleEscrowNavigation EscrowModal.next s))
       = EscrowModal.selectedIndex s
    /\ EscrowModal.selectedIndex
         (EscrowModal.handleEscrowNavigation EscrowModal.next
            (EscrowModal.handleEscrowNavigation EscrowModal.prev s))
       = EscrowModal.selectedIndex s.
Proof.
  intros s d len Hr s'. subst s'.
  assert (Hin : 0 <= EscrowModal.selectedIndex (EscrowModal.handleEscrowNavigation d s)
                < len).
  { rewrite navigation_index. cbv zeta. fold len.
    destruct d;
      repeat match goal with
             | |- context [?a <? ?b] => destruct (Z.ltb_spec a b)
             | |- context [?a <=? ?b] => destruct (Z.leb_spec a b)
             end; lia. }
  split; [apply navigation_keeps_list |]. split; [exact Hin |].
  split; [| split; [| split]].
  - intros Hlen. split.
    + rewrite navigation_index. cbv zeta. fold len.
      destruct d;
        repeat match goal with
               | |- context [?a <? ?b] => destruct (Z.ltb_spec a b)
               | |- context [?a <=? ?b] => destruct (Z.leb_spec a b)
               end; lia.
    + rewrite navigation_shown by exact Hlen.
      apply at_index_in_range. exact Hin.
  - intros Hle. unfold EscrowModal.handleEscrowNavigation. fold len.
    destruct (Z.leb_spec len 1); [reflexivity | lia].
  - rewrite !navigation_index. cbv zeta. rewrite !navigation_keeps_list. fold len.
    repeat match goal with
           | |- context [?a <? ?b] => destruct (Z.ltb_spec a b)
           | |- context [?a <=? ?b] => destruct (Z.leb_spec a b)
           end; lia.
  - rewrite !navigation_index. cbv zeta. rewrite !navigation_keeps_list. fold len.
    repeat match goal with
           | |- context [?a <? ?b] => destruct (Z.ltb_spec a b)
           | |- context [?a <=? ?b] => destruct (Z.leb_spec a b)
           end; lia.
Qed.

Lemma handleEscrowNavigation_cycles_witness :
  let s := {| EscrowModal.allEscrows :=
                [sampleEscrow CREATED 1700003600 0; sampleEscrow FUNDED 1700003600 0;
                 sampleEscrow ACTIVE 1700003600 0];
              EscrowModal.selectedIndex := 2;
              EscrowModal.shownEscrow := Some (sampleEscrow ACTIVE 1700003600 0) |} in
  0 <= EscrowModal.selectedIndex s < Z.of_nat (List.length (EscrowModal.allEscrows s))
  /\ 0 <= EscrowModal.selectedIndex
            (EscrowModal.handleEscrowNavigation EscrowModal.next s) < 3.
Proof.
  cbv zeta. split; [cbn; lia |].
  refine (proj1 (proj2 (handleEscrowNavigation_cycles
            {| EscrowModal.allEscrows :=
                 [sampleEscrow CREATED 1700003600 0; sampleEscrow FUNDED 1700003600 0;
                  sampleEscrow ACTIVE 1700003600 0];
               EscrowModal.selectedIndex := 2;
               EscrowModal.shownEscrow := Some (sampleEscrow ACTIVE 1700003600 0) |}
            EscrowModal.next _))).
  cbn. lia.
Defined.

(** ** Looking up the escrows of a conversation *)

Section ConversationReads.
Import EscrowLib.

Lemma getConversationEscrows_run c (w : World) (h : list Event) :
  getConversationEscrows c w h
  = let key := conversationIdToBytes32 c in
    match chain_getConversationEscrows w h key with
    | Ok ids => ([EvReadConversationEscrows key (Ok ids)], Ok ids)
    | Throw e =>
        ([EvReadConversationEscrows key (Throw e);
          EvConsoleError "Error fetching conversation escrows:"], Ok [])
    end.
Proof.
  unfold getConversationEscrows, try_catch, bind,
    readContract_getConversationEscrows, ret, console_error, emit.
  cbv zeta.
  destruct (chain_getConversationEscrows w h (conversationIdToBytes32 c));
    reflexivity.
Qed.

Lemma last_index {A} (l : list A) x :
  nth_error (l ++ [x]) (List.length (l ++ [x]) - 1) = Some x.
Proof.
  rewrite List.length_app. cbn [List.length].
  replace (List.length l + 1 - 1)%nat with (List.length l) by lia.
  rewrite nth_error_app2 by lia. now rewrite Nat.sub_diag.
Qed.

Lemma getEscrowByConversation_run c (w : World) (h : list Event) :
  snd (getEscrowByConversation c w h)
  = match chain_getConversationEscrows w h (conversationIdToBytes32 c) with
    | Ok ids => Ok (List.nth_error ids (List.length ids - 1))
    | Throw _ => Ok None
    end.
Proof.
  unfold getEscrowByConversation, try_catch, bind.
  rewrite getConversationEscrows_run. cbv zeta.
  destruct (chain_getConversationEscrows w h (conversationIdToBytes32 c)) as [ids | e];
    cbn; [| reflexivity].
  destruct ids; reflexivity.
Qed.


End ConversationReads.

(** X12.  [getConversationEscrows] never throws: it returns what the contract
    lists under the 32-byte key of the conversation, and the empty list when
    the read fails.  Because the key keeps only the first 32 bytes, two
    conversation identifiers longer than 32 bytes that agree on their first
    32 bytes issue the same read and get the same list. *)
Theorem getConversationEscrows_shares_long_identifiers :
  forall (w : World) (h : list Event) (c c' : string),
    (exists ids, snd (EscrowLib.getConversationEscrows c w h) = Ok ids)
    /\ (forall e,
          chain_getConversationEscrows w h (EscrowLib.conversationIdToBytes32 c)
          = Throw e ->
          snd (EscrowLib.getConversationEscrows c w h) = Ok [])
    /\ ((32 < String.length c)%nat -> (32 < String.length c')%nat ->
        firstn 32 (JS.TextEncoder_encode c) = firstn 32 (JS.TextEncoder_encode c') ->
        EscrowLib.getConversationEscrows c w h = EscrowLib.getConversationEscrows c' w h).
Proof.
  intros w h c c'. rewrite !getConversationEscrows_run. cbv zeta.
  split; [| split].
  - destruct (chain_getConversationEscrows w h _); eexists; reflexivity.
  - intros e ->. reflexivity.
  - intros _ _ H.
    assert (Hk : EscrowLib.conversationIdToBytes32 c = EscrowLib.conversationIdToBytes32 c').
    { apply toBytes32_eq_iff. rewrite !conversationIdBytes_layout, H. reflexivity. }
    rewrite Hk. reflexivity.
Qed.

Lemma getConversationEscrows_shares_long_identifiers_witness :
  let c := "0123456789abcdef0123456789abcdef-alice" in
  let c' := "0123456789abcdef0123456789abcdef-bob" in
  let w := {| chain_getEscrow := fun _ _ => Throw (OtherError "");
              chain_getConversationEscrows := fun _ _ => Ok [5; 9];
              wallet_writeContract := fun _ _ => Throw (OtherError "");
              chain_receipt := fun _ _ => Ok tt;
              parent_onEscrowUpdated := fun _ => Ok tt |} in
  ((32 < String.length c)%nat /\ (32 < String.length c')%nat
   /\ firstn 32 (JS.TextEncoder_encode c) = firstn 32 (JS.TextEncoder_encode c'))
  /\ EscrowLib.getConversationEscrows c w [] = EscrowLib.getConversationEscrows c' w [].
Proof.
  cbv zeta. split; [repeat split; cbn; lia |].
  apply (proj2 (proj2 (getConversationEscrows_shares_long_identifiers _ [] _ _)));
    first [reflexivity | cbn; lia].
Defined.

(** X13.  [getEscrowByConversation] never throws and answers with the last
    identifier the contract lists for the conversation; it answers [null]
    both when the list is empty and when the read fails, so the caller
    cannot tell the two apart. *)
Theorem getEscrowByConversation_latest_or_null :
  forall (w : World) (h : list Event) (c : string),
    let reply := chain_getConversationEscrows w h (EscrowLib.conversationIdToBytes32 c) in
    let result := snd (EscrowLib.getEscrowByConversation c w h) in
    (forall ids last, reply = Ok (ids ++ [last]) -> result = Ok (Some last))
    /\ (reply = Ok [] -> result = Ok None)
    /\ (forall e, reply = Throw e -> result = Ok None)
    /\ (forall e, result <> Throw e).
Proof.
  intros w h c reply result. subst reply result.
  rewrite getEscrowByConversation_run.
  split; [| split; [| split]].
  - intros ids last ->. now rewrite last_index.
  - intros ->. reflexivity.
  - intros e ->. reflexivity.
  - intros e. destruct (chain_getConversationEscrows w h _); discriminate.
Qed.

(** X14.  [checkConversationEscrow] never throws; [hasEscrow] is true exactly
    when the contract lists at least one escrow for the conversation, and
    the identifier returned is the last one listed, except that the
    identifier 0 is returned as [undefined] although [hasEscrow] is true. *)
Theorem checkConversationEscrow_reports_latest :
  forall (w : World) (h : list Event) (c : string),
    let reply := chain_getConversationEscrows w h (EscrowLib.conversationIdToBytes32 c) in
    exists check,
      snd (EscrowMessages.checkConversationEscrow c w h) = Ok check
      /\ (EscrowMessages.hasEscrow check = true
          <-> exists ids last, reply = Ok (ids ++ [last]))
      /\ (forall ids last,
            reply = Ok (ids ++ [last]) ->
            EscrowMessages.checkedEscrowId check
            = if last =? 0 then None else Some last)
      /\ (EscrowMessages.hasEscrow check = false ->
          EscrowMessages.checkedEscrowId check = None).
Proof.
  intros w h c reply.
  pose proof (getEscrowByConversation_run c w h) as Hrun. fold reply in Hrun.
  unfold EscrowMessages.checkConversationEscrow, try_catch, bind.
  destruct (EscrowLib.getEscrowByConversation c w h) as [t r]. cbn [snd] in Hrun.
  subst r.
  destruct reply as [ids | e] eqn:Hreply.
  - destruct (List.rev ids) as [| last rids] eqn:Hrev.
    + assert (ids = []) by (destruct ids; [reflexivity |];
        apply (f_equal (@List.length Z)) in Hrev; rewrite length_rev in Hrev;
        discriminate Hrev).
      subst ids. cbn. eexists. split; [reflexivity |]. cbn.
      split; [| split].
      * split; [discriminate |]. intros (ids & last & H).
        injection H as H. destruct ids; discriminate H.
      * intros ids last H. injection H as H. destruct ids; discriminate H.
      * reflexivity.
    + assert (Hids : ids = List.rev rids ++ [last]).
      { rewrite <- (rev_involutive ids), Hrev. reflexivity. }
      rewrite Hids, last_index. cbn. eexists. split; [reflexivity |]. cbn.
      split; [| split].
      * split; [intros _; eauto | reflexivity].
      * intros ids' last' H. injection H as H.
        apply app_inj_tail in H. destruct H as [_ <-].
        unfold JS.truthy_bigint. destruct (last =? 0); reflexivity.
      * discriminate.
  - cbn. eexists. split; [reflexivity |]. cbn.
    split; [| split].
    + split; [discriminate |]. intros (ids & last & H). discriminate H.
    + intros ids last H. discriminate H.
    + reflexivity.
Qed.


(** ** The other paths of the coordinator *)

Section CoordinatorPaths.
Import EscrowLib EscrowModal.

Lemma loop_step n attempt i st delayMs (w : World) (h : list Event) :
  waitForEscrowStateChange_loop (S n) attempt i st delayMs w h
  = match chain_getEscrow w h i with
    | Ok r =>
        if EscrowState_eqb (state r) st
        then ([EvReadEscrow i (Ok r)], Ok true)
        else
          let (t2, r2) :=
            waitForEscrowStateChange_loop n (attempt + 1) i st delayMs w
              (h ++ [EvReadEscrow i (Ok r); EvSetTimeout delayMs]) in
          ([EvReadEscrow i (Ok r); EvSetTimeout delayMs] ++ t2, r2)
    | Throw e =>
        let (t2, r2) :=
          waitForEscrowStateChange_loop n (attempt + 1) i st delayMs w
            (h ++ [EvReadEscrow i (Throw e);
                   EvConsoleError "Error fetching escrow:";
                   EvSetTimeout delayMs]) in
        ([EvReadEscrow i (Throw e);
          EvConsoleError "Error fetching escrow:";
          EvSetTimeout delayMs] ++ t2, r2)
    end.
Proof.
  cbn [waitForEscrowStateChange_loop]. unfold bind at 1.
  rewrite attempt_run.
  destruct (chain_getEscrow w h i) as [r | e]; [| reflexivity].
  destruct (EscrowState_eqb (state r) st); reflexivity.
Qed.

Lemma loop_sleeps rounds :
  forall attempt i st delayMs (w : World) (h : list Event),
    let out := waitForEscrowStateChange_loop rounds attempt i st delayMs w h in
    sleepsLast delayMs (fst out) = true
    /\ (snd out = Ok false -> sleeps (fst out) = rounds)
    /\ (snd out = Ok true -> S (sleeps (fst out)) = reads (fst out)).
Proof.
  induction rounds as [| n IH]; intros attempt i st delayMs w h; cbv zeta.
  - cbn. split; [reflexivity |]. split; intros H; [reflexivity | discriminate H].
  - rewrite loop_step.
    destruct (chain_getEscrow w h i) as [r | e].
    + destruct (EscrowState_eqb (state r) st).
      * cbn. split; [reflexivity |]. split; intros H; [discriminate H | reflexivity].
      * match goal with
        | |- context [waitForEscrowStateChange_loop n ?a ?i' ?s ?d ?w' ?h'] =>
            pose proof (IH a i' s d w' h') as Hrec; cbv zeta in Hrec;
            destruct (waitForEscrowStateChange_loop n a i' s d w' h') as [t2 r2]
        end.
        cbn [fst snd] in *. destruct Hrec as (Hs & Hf & Ht).
        unfold sleeps, reads in *. cbn. rewrite Z.eqb_refl. cbn.
        split; [exact Hs |]. split; intros Hr; [f_equal; auto | f_equal; auto].
    + match goal with
      | |- context [waitForEscrowStateChange_loop n ?a ?i' ?s ?d ?w' ?h'] =>
          pose proof (IH a i' s d w' h') as Hrec; cbv zeta in Hrec;
          destruct (waitForEscrowStateChange_loop n a i' s d w' h') as [t2 r2]
      end.
      cbn [fst snd] in *. destruct Hrec as (Hs & Hf & Ht).
      unfold sleeps, reads in *. cbn. rewrite Z.eqb_refl. cbn.
      split; [exact Hs |]. split; intros Hr; [f_equal; auto | f_equal; auto].
Qed.

Lemma waitAndRefresh_receipt_fails props hash expectedState e (w : World) (h : list Event) :
  chain_receipt w h hash = Throw e ->
  waitAndRefresh props hash expectedState w h
  = ([EvWaitForTransactionReceipt hash (Throw e);
      EvConsoleError "Error waiting for transaction:";
      EvAddToast pending_warning warning], Ok tt).
Proof.
  intros Hr. unfold waitAndRefresh, try_catch.
  unfold bind at 1. unfold waitForTransactionReceipt at 1. cbv beta zeta.
  rewrite Hr. reflexivity.
Qed.

Lemma callback_no_read (b : bool) (w : World) (h : list Event) :
  reads (fst ((if b then call_onEscrowUpdated else ret tt) w h)) = 0%nat.
Proof. destruct b; reflexivity. Qed.

Lemma waitAndRefresh_without_polling props hash expectedState (w : World) (h : list Event) :
  truthy_state expectedState && truthy_escrowId (escrowId props) = false ->
  chain_receipt w h hash = Ok tt ->
  let started := [EvWaitForTransactionReceipt hash (Ok tt); EvSetTimeout 3000] in
  exists rest,
    fst (waitAndRefresh props hash expectedState w h)
    = started ++ fst (loadEscrowData props w (h ++ started)) ++ rest
    /\ reads rest = 0%nat
    /\ (onEscrowUpdated props = false -> rest = []).
Proof.
  intros Hf Hr started. subst started.
  unfold waitAndRefresh, try_catch.
  unfold bind at 1. unfold waitForTransactionReceipt at 1. cbv beta zeta.
  rewrite Hr. cbv beta iota.
  unfold bind at 1.
  assert (Hsleep :
    @eq (M unit)
    (match expectedState, escrowId props with
     | Some st, Some i =>
         if truthy_state expectedState && JS.truthy_bigint i
         then stateUpdated <- waitForEscrowStateChange i st 15 3000 ;;
              (if negb stateUpdated then addToast state_updating_warning warning
               else ret tt)
         else sleep 3000
     | _, _ => sleep 3000
     end) (sleep 3000)).
  { destruct expectedState as [st |]; [| reflexivity].
    destruct (escrowId props) as [i |]; [| reflexivity].
    cbn [truthy_escrowId] in Hf. now rewrite Hf. }
  rewrite Hsleep. unfold sleep at 1, emit. cbv beta iota.
  unfold bind at 1.
  pose proof (loadEscrowData_returns props w
                ((h ++ [EvWaitForTransactionReceipt hash (Ok tt)]) ++ [EvSetTimeout 3000]))
    as Hret.
  replace ((h ++ [EvWaitForTransactionReceipt hash (Ok tt)]) ++ [EvSetTimeout 3000])
    with (h ++ [EvWaitForTransactionReceipt hash (Ok tt); EvSetTimeout 3000]) in *
    by (rewrite <- app_assoc; reflexivity).
  destruct (loadEscrowData props w
              (h ++ [EvWaitForTransactionReceipt hash (Ok tt); EvSetTimeout 3000]))
    as [tl rl].
  cbn [snd] in Hret. subst rl. cbv beta iota. cbn [fst].
  match goal with
  | |- context [(if onEscrowUpdated props then _ else _) ?w' ?h'] =>
      pose proof (callback_no_read (onEscrowUpdated props) w' h') as Hcb;
      assert (Hoff : onEscrowUpdated props = false ->
                     (if onEscrowUpdated props then call_onEscrowUpdated else ret tt) w' h'
                     = ([], Ok tt)) by (intros ->; reflexivity);
      destruct ((if onEscrowUpdated props then call_onEscrowUpdated else ret tt) w' h')
        as [tc [u | ec]]
  end; cbn [fst] in Hcb.
  - exists tc. cbn [fst app]. split; [reflexivity |]. split; [exact Hcb |].
    intros Hno. specialize (Hoff Hno). congruence.
  - exists (tc ++ [EvConsoleError "Error waiting for transaction:";
                   EvAddToast pending_warning warning]).
    unfold bind, console_error, addToast, emit. cbn [fst app]. split.
    + rewrite <- ?app_assoc. reflexivity.
    + split.
      * unfold reads in *. rewrite filter_app, List.length_app, Hcb. reflexivity.
      * intros Hno. specialize (Hoff Hno). discriminate Hoff.
Qed.

End CoordinatorPaths.

(** X16.  How long the polling waits.  Every wait of
    [waitForEscrowStateChange] lasts [delayMs]; a run that gives up has
    waited once per attempt, the last attempt included, and a run that
    succeeds has waited once per read that did not show the expected state. *)
Theorem waitForEscrowStateChange_waits :
  forall (w : World) (h : list Event) (i : Z) (st : EscrowState)
         (maxAttempts delayMs : Z),
    let out := EscrowLib.waitForEscrowStateChange i st maxAttempts delayMs w h in
    sleepsLast delayMs (fst out) = true
    /\ (snd out = Ok false -> sleeps (fst out) = Z.to_nat maxAttempts)
    /\ (snd out = Ok true -> S (sleeps (fst out)) = reads (fst out)).
Proof.
  intros w h i st maxAttempts delayMs.
  apply loop_sleeps.
Qed.

(** X17.  When the wait for the receipt throws, [waitAndRefresh] swallows
    the exception: it logs, shows the "may still be pending" warning, and
    does nothing else; the escrow is not polled or reloaded and the parent
    is not notified. *)
Theorem waitAndRefresh_when_receipt_fails :
  forall (w : World) (h : list Event) (props : EscrowModal.Props) (hash : Hash)
         (expectedState : option EscrowState) (e : Error),
    chain_receipt w h hash = Throw e ->
    EscrowModal.waitAndRefresh props hash expectedState w h
    = ([EvWaitForTransactionReceipt hash (Throw e);
        EvConsoleError "Error waiting for transaction:";
        EvAddToast EscrowModal.pending_warning warning], Ok tt).
Proof.
  intros w h props hash expectedState e. apply waitAndRefresh_receipt_fails.
Qed.

Lemma waitAndRefresh_when_receipt_fails_witness :
  let w := constantWorld (Ok (sampleEscrow FUNDED 1700003600 0)) (Ok "0x01")
             (Throw (HttpRequestError "timeout")) in
  chain_receipt w [] "0x01" = Throw (HttpRequestError "timeout")
  /\ reads (fst (EscrowModal.waitAndRefresh
                   {| EscrowModal.escrowId := Some 7;
                      EscrowModal.conversationId := "dm:1f2e";
                      EscrowModal.onEscrowUpdated := true |}
                   "0x01" (Some FUNDED) w [])) = 0%nat.
Proof.
  cbv zeta. split; [reflexivity |].
  rewrite (waitAndRefresh_when_receipt_fails
             (constantWorld (Ok (sampleEscrow FUNDED 1700003600 0)) (Ok "0x01")
                (Throw (HttpRequestError "timeout")))
             [] _ "0x01" (Some FUNDED) (HttpRequestError "timeout") eq_refl).
  reflexivity.
Defined.

(** X18.  Without a state to wait for there is no polling: when the expected
    state is absent or is CREATED (the enum value 0), or the modal has no
    escrow identifier or the identifier 0, [waitAndRefresh] waits a fixed
    3000 ms after the receipt and then reloads; nothing is read before the
    reload and nothing after it. *)
Theorem waitAndRefresh_without_expected_state :
  forall (w : World) (h : list Event) (props : EscrowModal.Props) (hash : Hash)
         (expectedState : option EscrowState),
    expectedState = None \/ expectedState = Some CREATED
    \/ EscrowModal.escrowId props = None \/ EscrowModal.escrowId props = Some 0 ->
    chain_receipt w h hash = Ok tt ->
    let started := [EvWaitForTransactionReceipt hash (Ok tt); EvSetTimeout 3000] in
    exists rest,
      fst (EscrowModal.waitAndRefresh props hash expectedState w h)
      = started ++ fst (EscrowModal.loadEscrowData props w (h ++ started)) ++ rest
      /\ reads rest = 0%nat
      /\ (EscrowModal.onEscrowUpdated props = false -> rest = []).
Proof.
  intros w h props hash expectedState Hc Hr.
  apply waitAndRefresh_without_polling; [| exact Hr].
  destruct Hc as [-> | [-> | [-> | ->]]]; try reflexivity;
    destruct expectedState as [[] |]; reflexivity.
Qed.

Lemma waitAndRefresh_without_expected_state_witness :
  let w := constantWorld (Ok (sampleEscrow CREATED 1700003600 0)) (Ok "0x01") (Ok tt) in
  let props := {| EscrowModal.escrowId := Some 7;
                  EscrowModal.conversationId := "dm:1f2e";
                  EscrowModal.onEscrowUpdated := false |} in
  ((Some CREATED = None \/ Some CREATED = Some CREATED
    \/ EscrowModal.escrowId props = None \/ EscrowModal.escrowId props = Some 0)
   /\ chain_receipt w [] "0x01" = Ok tt)
  /\ exists rest,
      fst (EscrowModal.waitAndRefresh props "0x01" (Some CREATED) w [])
      = [EvWaitForTransactionReceipt "0x01" (Ok tt); EvSetTimeout 3000]
          ++ fst (EscrowModal.loadEscrowData props w
                    ([] ++ [EvWaitForTransactionReceipt "0x01" (Ok tt); EvSetTimeout 3000]))
          ++ rest
      /\ reads rest = 0%nat
      /\ (EscrowModal.onEscrowUpdated props = false -> rest = []).
Proof.
  cbv zeta. split; [split; [right; left; reflexivity | reflexivity] |].
  apply (waitAndRefresh_without_expected_state
           (constantWorld (Ok (sampleEscrow CREATED 1700003600 0)) (Ok "0x01") (Ok tt))
           [] _ "0x01" (Some CREATED)).
  - right. left. reflexivity.
  - reflexivity.
Defined.

(** ** Chat commands ([escrowMessages.ts]) *)

Section ChatCommands.
Import JS.


Lemma isWord_nonempty w : isWord w = true -> w <> EmptyString.
Proof. intros H ->. discriminate H. Qed.






Lemma split_space_nonempty s : split_space s <> [].
Proof.
  induction s as [| c s IH]; cbn; [discriminate |].
  destruct (Ascii.eqb c " "); [discriminate |].
  destruct (split_space s); discriminate.
Qed.





Lemma join_space_cons w ws :
  ws <> [] -> join_space (w :: ws) = (w ++ String " " (join_space ws))%string.
Proof. destruct ws; [congruence | reflexivity]. Qed.

Lemma join_space_head c p ps :
  join_space (String c p :: ps) = String c (join_space (p :: ps)).
Proof. destruct ps; reflexivity. Qed.

Lemma join_split_space s : join_space (split_space s) = s.
Proof.
  induction s as [| c s IH]; [reflexivity |].
  cbn [split_space]. destruct (Ascii.eqb_spec c " ") as [-> | Hc].
  - rewrite join_space_cons by apply split_space_nonempty.
    rewrite IH. reflexivity.
  - destruct (split_space s) as [| p ps] eqn:E; [now destruct (split_space_nonempty s) |].
    rewrite join_space_head, IH. reflexivity.
Qed.



Lemma prefix_splits p : forall s, String.prefix p s = true -> exists r, s = (p ++ r)%string.
Proof.
  induction p as [| a p IH]; intros s H.
  - now exists s.
  - destruct s as [| b s]; cbn in H; [discriminate |].
    destruct (ascii_dec a b) as [-> | _]; [| discriminate].
    destruct (IH s H) as [r ->]. now exists r.
Qed.

Lemma prefix_append p r : String.prefix p (p ++ r) = true.
Proof.
  induction p as [| a p IH]; cbn; [now destruct r |].
  destruct (ascii_dec a a); [exact IH | congruence].
Qed.

Lemma includes_after a sub s : includes sub s = true -> includes sub (a ++ s) = true.
Proof.
  intros H. induction a as [| c a IH]; [exact H |].
  cbn [String.append includes]. rewrite IH. apply orb_true_r.
Qed.

Lemma trimStart_suffix m : exists a, m = (a ++ trimStart m)%string.
Proof.
  induction m as [| c m [a IH]]; [now exists EmptyString |].
  cbn [trimStart]. destruct (is_space c).
  - exists (String c a). cbn. now rewrite <- IH.
  - now exists EmptyString.
Qed.

Lemma trimEnd_prefix t : exists b, t = (trimEnd t ++ b)%string.
Proof.
  induction t as [| c t [b IH]]; [now exists EmptyString |].
  cbn [trimEnd]. destruct (trimEnd t) as [| d t'] eqn:E.
  - destruct (is_space c).
    + exists (String c t). reflexivity.
    + exists t. cbn. reflexivity.
  - exists b. cbn. cbn in IH. now rewrite <- IH.
Qed.

End ChatCommands.




(** X21.  Every message that [parseEscrowCommand] accepts is one that
    [containsEscrowReference] recognises. *)
Theorem parsed_commands_contain_a_reference :
  forall (message : string) (command : string) (args : list string),
    EscrowMessages.parseEscrowCommand message = Some (command, args) ->
    EscrowMessages.containsEscrowReference message = true.
Proof.
  intros message command args H.
  unfold EscrowMessages.parseEscrowCommand in H.
  destruct (String.prefix "/escrow" (JS.trim message)) eqn:Hp; [| discriminate H].
  clear H. unfold JS.trim in Hp.
  apply prefix_splits in Hp. destruct Hp as [r Hr].
  destruct (trimStart_suffix message) as [a Ha].
  destruct (trimEnd_prefix (JS.trimStart message)) as [b Hb].
  assert (Hinc : JS.includes "/escrow" message = true).
  { rewrite Ha. apply includes_after. rewrite Hb, Hr.
    change (JS.includes "/escrow" (("/escrow" ++ r) ++ b)%string)
      with (String.prefix "/escrow" (("/escrow" ++ r) ++ b)
            || JS.includes "/escrow" (JS.slice1 (("/escrow" ++ r) ++ b)))%string.
    assert (Hpre : String.prefix "/escrow" (("/escrow" ++ r) ++ b) = true).
    { replace (("/escrow" ++ r) ++ b)%string with ("/escrow" ++ (r ++ b))%string
        by reflexivity.
      apply prefix_append. }
    now rewrite Hpre. }
  unfold EscrowMessages.containsEscrowReference. rewrite Hinc.
  now rewrite !orb_true_r.
Qed.

Lemma parsed_commands_contain_a_reference_witness :
  EscrowMessages.parseEscrowCommand "  /escrow manage 7 " = Some ("manage", ["7"])
  /\ EscrowMessages.containsEscrowReference "  /escrow manage 7 " = true.
Proof.
  split; [reflexivity |].
  exact (parsed_commands_contain_a_reference "  /escrow manage 7 " "manage" ["7"] eq_refl).
Defined.

(** ** Shortened identifiers *)

Section ShortIds.

Lemma length_substring s :
  forall n m, (n + m <= String.length s)%nat -> String.length (substring n m s) = m.
Proof.
  induction s as [| c s IH]; intros [| n] [| m] H; cbn in *; try lia.
  - f_equal. apply (IH 0%nat m). lia.
  - apply (IH n 0%nat). lia.
  - apply (IH n (S m)). lia.
Qed.

Lemma substring0_app a r : substring 0 (String.length a) (a ++ r) = a.
Proof.
  induction a as [| c a IH]; cbn; [now destruct r | now rewrite IH].
Qed.

Lemma substring_skip_app a r k m :
  substring (String.length a + k) m (a ++ r) = substring k m r.
Proof. induction a as [| c a IH]; cbn; auto. Qed.

Lemma substring0_all b : substring 0 (String.length b) b = b.
Proof. induction b as [| c b IH]; cbn; congruence. Qed.

Lemma eqb_false_by_length s t :
  String.length s <> String.length t -> String.eqb s t = false.
Proof.
  intros H. destruct (String.eqb_spec s t) as [-> | _]; [congruence | reflexivity].
Qed.

Lemma formatInboxId_long s :
  (10 < String.length s)%nat ->
  let a := JS.slice 0 6 s in
  let b := JS.slice_last 4 s in
  EscrowMessages.formatInboxId s = (a ++ "..." ++ b)%string
  /\ String.length a = 6%nat /\ String.length b = 4%nat.
Proof.
  intros Hl a b. subst a b.
  unfold EscrowMessages.formatInboxId.
  rewrite (eqb_false_by_length s "") by (cbn; lia).
  rewrite (eqb_false_by_length s "Unknown") by (cbn; lia).
  cbn [orb]. destruct (Nat.ltb_spec 10 (String.length s)); [| lia].
  split; [reflexivity |].
  unfold JS.slice, JS.slice_last. split; apply length_substring; lia.
Qed.

End ShortIds.

(** X22.  [formatInboxId] gives a text that is never empty and never longer
    than 13 characters; identifiers of at most 10 characters are kept; a
    longer one becomes its first six characters, three dots and its last
    four; and formatting a formatted identifier changes nothing. *)
Theorem formatInboxId_short_and_stable :
  forall (inboxId : string),
    EscrowMessages.formatInboxId inboxId <> ""
    /\ (String.length (EscrowMessages.formatInboxId inboxId) <= 13)%nat
    /\ (inboxId <> "" -> (String.length inboxId <= 10)%nat ->
        EscrowMessages.formatInboxId inboxId = inboxId)
    /\ ((10 < String.length inboxId)%nat ->
        EscrowMessages.formatInboxId inboxId
        = (substring 0 6 inboxId ++ "..."
             ++ substring (String.length inboxId - 4) 4 inboxId)%string)
    /\ EscrowMessages.formatInboxId (EscrowMessages.formatInboxId inboxId)
       = EscrowMessages.formatInboxId inboxId.
Proof.
  intros s.
  destruct (Nat.ltb_spec 10 (String.length s)) as [Hlong | Hshort].
  - destruct (formatInboxId_long s Hlong) as (Hf & Ha & Hb).
    cbv zeta in Hf. rewrite Hf.
    set (a := JS.slice 0 6 s) in *. set (b := JS.slice_last 4 s) in *.
    assert (Hlen : String.length (a ++ "..." ++ b) = 13%nat)
      by (rewrite !length_app, Ha, Hb; reflexivity).
    split; [intros E; rewrite E in Hlen; discriminate Hlen |].
    split; [lia |]. split; [lia |]. split; [reflexivity |].
    destruct (formatInboxId_long (a ++ "..." ++ b) ltac:(lia)) as (Hf2 & _ & _).
    cbv zeta in Hf2. rewrite Hf2. unfold JS.slice, JS.slice_last.
    rewrite Hlen. cbn [Nat.sub].
    rewrite <- Ha at 1. rewrite substring0_app.
    replace 9%nat with (String.length a + 3)%nat by lia.
    rewrite substring_skip_app.
    change 3%nat with (String.length "..." + 0)%nat.
    rewrite substring_skip_app.
    rewrite <- Hb at 1. now rewrite substring0_all.
  - unfold EscrowMessages.formatInboxId.
    destruct (String.eqb_spec s "") as [-> | Hne]; [cbn; repeat split; try discriminate; try lia; congruence |].
    destruct (String.eqb_spec s "Unknown") as [-> | Hnu];
      [cbn; repeat split; try discriminate; try lia; reflexivity |].
    cbn [orb]. destruct (Nat.ltb_spec 10 (String.length s)); [lia |].
    split; [exact Hne |]. split; [lia |]. split; [reflexivity |]. split; [lia |].
    destruct (String.eqb_spec s ""); [congruence |].
    destruct (String.eqb_spec s "Unknown"); [congruence |].
    cbn [orb]. destruct (Nat.ltb_spec 10 (String.length s)); [lia | reflexivity].
Qed.
